(** * Inventario: ventas (carrito y venta rápida) y existencias por categoría

    Shallow embedding of [src/routes/index.js] and of the product schema of
    [src/models/Producto.js].

    - JavaScript numbers that hold quantities and amounts are integers [Z]
      (amounts in minor currency units); ObjectIds are [positive].
    - The MongoDB collections are finite maps keyed by [_id] (products,
      categories) and an append-only list (sales).
    - A route handler is a computation in a small monad [M] over the world
      [Mundo]: the committed database, the working copy of the open
      transaction, and a clock counting the awaited store operations.  An
      oracle [falla] says which store operations throw; [try]/[catch] is
      [intentar]; [return res.json(...)] is [responder]. *)

From stdpp Require Import gmap strings list fin_maps.
From Stdlib Require Import ZArith Lia.

Local Open Scope Z_scope.

(** ** Data model *)

Abbreviation Id := positive (only parsing).

(** [productoSchema] of [models/Producto.js]. *)
Record Producto : Type := mkProducto {
  nombre : string;
  precio : Z;
  cantidad : Z;
  categoriaID : Id
}.

(** Modelled from the spec: the schema of [models/Categoria.js], which the
    routes import.  A category has an identity (its key in [categorias]) and
    a unique display name; the routes read only the name. *)
Record Categoria : Type := mkCategoria {
  cat_nombre : string
}.

(** An element of [productosVendidos], as the routes build it. *)
Record ProductoVendido : Type := mkProductoVendido {
  productoID : Id;
  pv_nombre : string;
  precioUnitario : Z;
  pv_cantidad : Z;
  subtotal : Z
}.

(** Modelled from the spec: the schema of [models/venta.js], which the
    routes import.  A sale holds the items sold and the total amount, the two
    fields the routes give to [new Venta]; its identity and timestamp are
    left out.  What its [save()] may reject is a failure of the store. *)
Record Venta : Type := mkVenta {
  productosVendidos : list ProductoVendido;
  totalVenta : Z
}.

(** An element of [req.body.cart]: [{ id, cantidad }]. *)
Record Item : Type := mkItem {
  item_id : Id;
  item_cantidad : Z
}.

Record BD : Type := mkBD {
  productos : gmap positive Producto;
  categorias : gmap positive Categoria;
  ventas : list Venta
}.

#[global] Instance Producto_eq_dec : EqDecision Producto.
Proof. solve_decision. Defined.
#[global] Instance ProductoVendido_eq_dec : EqDecision ProductoVendido.
Proof. solve_decision. Defined.
#[global] Instance Venta_eq_dec : EqDecision Venta.
Proof. solve_decision. Defined.
#[global] Instance Item_eq_dec : EqDecision Item.
Proof. solve_decision. Defined.

(** What a rejected promise carries. *)
Inductive Error : Type :=
| ErrorAlmacen      (* the store fails: connection, write conflict, ... *)
| ErrorValidacion.  (* a schema validator of [save()] fails *)

(** The responses the two sale routes send, one constructor per
    [res.status(..).json(..)] of the source, holding the values the source
    interpolates or embeds. *)
Inductive Respuesta : Type :=
| CarritoVacio
    (* 400 { error: 'El carrito está vacío.' } *)
| NoEncontradoID (i : Id)
    (* 404 { error: `Producto con ID ${item.id} no encontrado.` } *)
| StockInsuficientePara (n : string) (disponible : Z)
    (* 400 { error: `Stock insuficiente para ${producto.nombre}. Solo hay
       ${producto.cantidad} unidades.` } *)
| VentaFinalizada (total : Z)
    (* 200 { success: true, message: `Venta finalizada con éxito por
       $${totalVenta.toFixed(2)}` } *)
| ErrorTransaccion
    (* 500 { error: 'Error al ejecutar la transacción de venta.' } *)
| ErrorInterno
    (* 500 { error: 'Error interno del servidor.' } *)
| CantidadInvalida
    (* 400 { success: false, error: 'La cantidad debe ser un número mayor a
       cero.' } *)
| NoEncontrado
    (* 404 { success: false, error: 'Producto no encontrado.' } *)
| StockInsuficiente (disponible : Z)
    (* 400 { success: false, error: `Stock insuficiente. Solo hay
       ${producto.cantidad} unidades.` } *)
| VentaRegistrada (cantidadVenta : Z) (i : Id) (productoActualizado : Producto)
    (* 200 { success: true, mensaje: `Venta de ${cantidadVenta} unidades
       registrada.`, productoActualizado: producto } *)
| ErrorInternoCon (e : Error).
    (* 500 { success: false, error: 'Error interno del servidor. ' +
       error.message } *)

#[global] Instance Error_eq_dec : EqDecision Error.
Proof. solve_decision. Defined.
#[global] Instance Respuesta_eq_dec : EqDecision Respuesta.
Proof. solve_decision. Defined.

(** The HTTP status of each response. *)
Definition estado (r : Respuesta) : nat :=
  match r with
  | CarritoVacio => 400
  | NoEncontradoID _ => 404
  | StockInsuficientePara _ _ => 400
  | VentaFinalizada _ => 200
  | ErrorTransaccion => 500
  | ErrorInterno => 500
  | CantidadInvalida => 400
  | NoEncontrado => 404
  | StockInsuficiente _ => 400
  | VentaRegistrada _ _ _ => 200
  | ErrorInternoCon _ => 500
  end%nat.


(** ** Store updates *)

Definition con_cantidad (c : Z) (p : Producto) : Producto :=
  mkProducto (nombre p) (precio p) c (categoriaID p).

(** [{ $inc: { cantidad: n } }] on the document [i]; no document, no
    change.  An update runs no schema validator. *)
Definition inc_cantidad (i : Id) (n : Z) (db : BD) : BD :=
  mkBD (alter (λ p, con_cantidad (cantidad p + n) p) i (productos db))
       (categorias db) (ventas db).

(** [$set] of the modified path [cantidad], what [producto.save()] sends. *)
Definition set_cantidad (i : Id) (c : Z) (db : BD) : BD :=
  mkBD (alter (con_cantidad c) i (productos db)) (categorias db) (ventas db).

(** Insertion of a new sale document. *)
Definition insertar_venta (v : Venta) (db : BD) : BD :=
  mkBD (productos db) (categorias db) (ventas db ++ [v]).

(** ** Existencias por categoría *)

(** A document after [$group]: [{ _id, totalExistencias }]. *)
Record Grupo : Type := mkGrupo {
  g_id : Id;
  g_totalExistencias : Z
}.

(** A document after [$project]: [{ _id, nombre, totalExistencias }]. *)
Record Existencia : Type := mkExistencia {
  e_id : Id;
  e_nombre : string;
  e_totalExistencias : Z
}.

(** The accumulator [{ $sum: '$cantidad' }] of the group [c] receives [n];
    a group is created when its key is first seen. *)
Fixpoint acumular (c : Id) (n : Z) (gs : list Grupo) : list Grupo :=
  match gs with
  | [] => [mkGrupo c n]
  | g :: gs' =>
      if decide (g_id g = c)
      then mkGrupo c (g_totalExistencias g + n) :: gs'
      else g :: acumular c n gs'
  end.

(** One document enters [$group]. *)
Definition paso_group (gs : list Grupo) (d : Id * Producto) : list Grupo :=
  acumular (categoriaID d.2) (cantidad d.2) gs.

(** [{ $group: { _id: '$categoriaID', totalExistencias: { $sum: '$cantidad' } } }] *)
Definition etapa_group (docs : list (Id * Producto)) : list Grupo :=
  foldl paso_group [] docs.

(** [{ $lookup: { from: 'categorias', localField: '_id', foreignField:
    '_id', as: 'categoriaInfo' } }]: the array of the matching categories. *)
Definition etapa_lookup (cats : gmap positive Categoria) (g : Grupo)
    : Grupo * list Categoria :=
  (g, option_list (cats !! g_id g)).

(** [{ $unwind: '$categoriaInfo' }]: one document per element of the array,
    none when it is empty. *)
Definition etapa_unwind (d : Grupo * list Categoria)
    : list (Grupo * Categoria) :=
  (λ k, (d.1, k)) <$> d.2.

(** [{ $project: { _id: 1, nombre: '$categoriaInfo.nombre',
    totalExistencias: 1 } }] *)
Definition etapa_project (d : Grupo * Categoria) : Existencia :=
  mkExistencia (g_id d.1) (cat_nombre d.2) (g_totalExistencias d.1).

(** The pipeline of [Producto.aggregate]. *)
Definition agregar_existencias (db : BD) : list Existencia :=
  etapa_project <$>
    ((etapa_lookup (categorias db) <$> etapa_group (map_to_list (productos db)))
       ≫= etapa_unwind).

(** [acc[clave] = v] on a plain object, [v] a number: the key ["__proto__"]
    is the accessor of [Object.prototype], whose setter ignores a number, so
    nothing is stored for it. *)
Definition asignar (acc : gmap string Z) (clave : string) (v : Z)
    : gmap string Z :=
  if decide (clave = "__proto__") then acc else <[clave := v]> acc.

(** The [reduce] of the home route: an object keyed by category name. *)
Definition existenciasMap (existenciasPorCategoria : list Existencia)
    : gmap string Z :=
  foldl (λ acc curr, asignar acc (e_nombre curr) (e_totalExistencias curr)) ∅
        existenciasPorCategoria.

(** ** The monad of the handlers *)

Record Mundo : Type := mkMundo {
  bd : BD;                (* committed documents *)
  sesion : option BD;     (* working copy of the open transaction *)
  reloj : nat             (* store operations awaited so far *)
}.

Inductive Resultado (A : Type) : Type :=
| Valor (a : A)           (* the statement completes *)
| Lanza (e : Error)       (* an exception propagates *)
| Responde (r : Respuesta). (* [return res....]: the handler is over *)

Arguments Valor {A} a.
Arguments Lanza {A} e.
Arguments Responde {A} r.

Definition M (A : Type) : Type := Mundo → Resultado A * Mundo.

#[global] Instance M_ret : MRet M := λ A (a : A) w, (Valor a, w).

#[global] Instance M_bind : MBind M := λ A B (k : A → M B) (m : M A) w,
  match m w with
  | (Valor a, w') => k a w'
  | (Lanza e, w') => (Lanza e, w')
  | (Responde r, w') => (Responde r, w')
  end.

Definition lanzar {A} (e : Error) : M A := λ w, (Lanza e, w).

Definition responder {A} (r : Respuesta) : M A := λ w, (Responde r, w).

(** [try { m } catch (e) { h e }]: only exceptions are caught, a [return]
    inside the block leaves the handler. *)
Definition intentar {A} (m : M A) (h : Error → M A) : M A :=
  λ w, match m w with
       | (Lanza e, w') => h e w'
       | otro => otro
       end.

Definition avanzar (w : Mundo) : Mundo :=
  mkMundo (bd w) (sesion w) (S (reloj w)).

Section Rutas.

(** Which awaited store operations throw, by their position in the
    request. *)
Variable falla : nat → bool.

Definition operacion {A} (f : Mundo → Resultado A * Mundo) : M A :=
  λ w, if falla (reloj w) then (Lanza ErrorAlmacen, avanzar w)
       else f (avanzar w).

(** [await Producto.findById(i)], outside any session. *)
Definition findById (i : Id) : M (option Producto) :=
  operacion (λ w, (Valor (productos (bd w) !! i), w)).

(** A write with [{ session }]: it changes the working copy of the
    transaction. *)
Definition escribir_en_sesion (f : BD → BD) : M unit :=
  operacion (λ w, match sesion w with
                  | Some t => (Valor (), mkMundo (bd w) (Some (f t)) (reloj w))
                  | None => (Lanza ErrorAlmacen, w)
                  end).

(** A write without session: it is committed at once. *)
Definition escribir (f : BD → BD) : M unit :=
  operacion (λ w, (Valor (), mkMundo (f (bd w)) (sesion w) (reloj w))).

(** [await mongoose.startSession(); session.startTransaction()]. *)
Definition startSession : M unit :=
  operacion (λ w, (Valor (), mkMundo (bd w) (Some (bd w)) (reloj w))).

(** [await session.commitTransaction()]: the working copy becomes the
    committed state. *)
Definition commitTransaction : M unit :=
  operacion (λ w, match sesion w with
                  | Some t => (Valor (), mkMundo t (Some t) (reloj w))
                  | None => (Lanza ErrorAlmacen, w)
                  end).

(** [await session.abortTransaction()]: the working copy is dropped; like
    every awaited call of the store it may throw. *)
Definition abortTransaction : M unit :=
  operacion (λ w, (Valor (), mkMundo (bd w) None (reloj w))).

(** [session.endSession()], which the route does not await. *)
Definition endSession : M unit :=
  λ w, (Valor (), mkMundo (bd w) None (reloj w)).

(** The validators of [productoSchema] on a loaded document: [nombre]
    required (a string that is not empty), [precio] and [cantidad] at least
    0; [categoriaID], required, is always there in [Producto]. *)
Definition documento_valido (p : Producto) : bool :=
  negb (bool_decide (nombre p = "")) && (0 <=? precio p) && (0 <=? cantidad p).

(** [await producto.save()] of a loaded product whose [cantidad] was
    assigned: the validators of the schema run on the document first, then
    the modified path is written. *)
Definition guardarProducto (i : Id) (p : Producto) : M unit :=
  if documento_valido p then escribir (set_cantidad i (cantidad p))
  else lanzar ErrorValidacion.

(** *** POST /ventas/finalizar *)

(** Phase 1, the loop [for (const item of cart)] that checks the stock and
    fills [productosVendidos] and [totalVenta]. *)
Fixpoint validar (cart : list Item) (productosVendidos : list ProductoVendido)
    (totalVenta : Z) : M (list ProductoVendido * Z) :=
  match cart with
  | [] => mret (productosVendidos, totalVenta)
  | item :: resto =>
      producto ← findById (item_id item);
      match producto with
      | None => responder (NoEncontradoID (item_id item))
      | Some p =>
          if cantidad p <? item_cantidad item
          then responder (StockInsuficientePara (nombre p) (cantidad p))
          else validar resto
                 (productosVendidos ++
                    [mkProductoVendido (item_id item) (nombre p) (precio p)
                       (item_cantidad item) (item_cantidad item * precio p)])
                 (totalVenta + item_cantidad item * precio p)
      end
  end.

(** Phase 2, the loop of [findByIdAndUpdate(item.id, { $inc: { cantidad:
    -item.cantidad } }, { session })]. *)
Fixpoint descontar (cart : list Item) : M unit :=
  match cart with
  | [] => mret ()
  | item :: resto =>
      escribir_en_sesion (inc_cantidad (item_id item) (- item_cantidad item));;
      descontar resto
  end.

Definition finalizarVenta (cart : list Item) : M Respuesta :=
  if bool_decide (cart = []) then responder CarritoVacio
  else
    intentar
      (validado ← validar cart [] 0;
       startSession;;
       intentar
         (descontar cart;;
          escribir_en_sesion (insertar_venta (mkVenta validado.1 validado.2));;
          commitTransaction;;
          endSession;;
          responder (VentaFinalizada validado.2))
         (λ _, abortTransaction;;
               endSession;;
               responder ErrorTransaccion))
      (λ _, responder ErrorInterno).

(** *** POST /productos/vender/:id

    [cantidadVenta] is the result of [parseInt]: [None] is [NaN]. *)
Definition venderProducto (productoId : Id) (cantidadVenta : option Z)
    : M Respuesta :=
  match cantidadVenta with
  | None => responder CantidadInvalida
  | Some q =>
      if q <=? 0 then responder CantidadInvalida
      else
        intentar
          (producto ← findById productoId;
           match producto with
           | None => responder NoEncontrado
           | Some p =>
               if cantidad p <? q then responder (StockInsuficiente (cantidad p))
               else
                 let totalVenta := precio p * q in
                 escribir (insertar_venta
                   (mkVenta [mkProductoVendido productoId (nombre p) (precio p)
                               q totalVenta] totalVenta));;
                 let p' := con_cantidad (cantidad p - q) p in
                 guardarProducto productoId p';;
                 responder (VentaRegistrada q productoId p')
           end)
          (λ e, responder (ErrorInternoCon e))
  end.

(** *** GET /: existencias por categoría *)

Definition calcularExistenciasPorCategoria : M (list Existencia) :=
  intentar
    (operacion (λ w, (Valor (agregar_existencias (bd w)), w)))
    (λ _, mret []).

(** What the home route hands to the view as [existencias]. *)
Definition existencias_inicio : M (gmap string Z) :=
  existenciasPorCategoria ← calcularExistenciasPorCategoria;
  mret (existenciasMap existenciasPorCategoria).

End Rutas.

(** A request on the database [db]: the response sent, if any, and the
    committed database it leaves. *)
Definition correr (m : M Respuesta) (db : BD) : option Respuesta * BD :=
  match m (mkMundo db None 0) with
  | (Valor r, w) => (Some r, bd w)
  | (Responde r, w) => (Some r, bd w)
  | (Lanza _, w) => (None, bd w)
  end.

(** No store operation fails. *)
Definition sin_fallos : nat → bool := λ _, false.

(** The store fails at its operation number [n] only. *)
Definition falla_en (n : nat) : nat → bool := λ k, bool_decide (k = n).


(** ** Vocabulary of the statements *)

(** The line asks for a product that exists, and for no more than its
    stock. *)
Definition linea_valida (db : BD) (item : Item) : Prop :=
  ∃ p, productos db !! item_id item = Some p ∧ item_cantidad item ≤ cantidad p.

(** The response of the validation loop to a line that is not valid. *)
Definition error_linea (db : BD) (item : Item) : Respuesta :=
  match productos db !! item_id item with
  | None => NoEncontradoID (item_id item)
  | Some p => StockInsuficientePara (nombre p) (cantidad p)
  end.

(** The sold item of a line: name and unit price as the product has them
    when the line is validated. *)
Definition vendido (item : Item) (p : Producto) : ProductoVendido :=
  mkProductoVendido (item_id item) (nombre p) (precio p) (item_cantidad item)
    (item_cantidad item * precio p).

Definition vendidos (db : BD) (cart : list Item) : list ProductoVendido :=
  omap (λ item, vendido item <$> productos db !! item_id item) cart.

Definition suma_subtotales (l : list ProductoVendido) : Z :=
  foldr (λ pv s, subtotal pv + s) 0 l.

(** The quantity a cart asks of the product [i], over all its lines. *)
Definition pedido (i : Id) (cart : list Item) : Z :=
  foldr (λ item s, if decide (item_id item = i) then item_cantidad item + s
                   else s) 0 cart.

(** All the decrements of a cart, in order. *)
Definition descuentos (cart : list Item) (db : BD) : BD :=
  foldl (λ t item, inc_cantidad (item_id item) (- item_cantidad item) t) db cart.

(** The sale a valid cart records, and the database it leaves. *)
Definition venta_carrito (db : BD) (cart : list Item) : Venta :=
  mkVenta (vendidos db cart) (suma_subtotales (vendidos db cart)).

Definition bd_vendida (db : BD) (cart : list Item) : BD :=
  insertar_venta (venta_carrito db cart) (descuentos cart db).

(** The sale a quick sale records. *)
Definition venta_rapida (i : Id) (q : Z) (p : Producto) : Venta :=
  mkVenta [mkProductoVendido i (nombre p) (precio p) q (precio p * q)]
          (precio p * q).

(** The stock of the products of the category [c]. *)
Definition existencias_de (c : Id) (db : BD) : Z :=
  map_fold (λ _ p s, if decide (categoriaID p = c) then cantidad p + s else s)
           0 (productos db).

(** The stock of all the products. *)
Definition existencias_totales (db : BD) : Z :=
  map_fold (λ _ p s, cantidad p + s) 0 (productos db).

(** The stock of the products whose category does not exist. *)
Definition existencias_sin_categoria (db : BD) : Z :=
  map_fold (λ _ p s, if categorias db !! categoriaID p is Some _ then s
                     else cantidad p + s) 0 (productos db).

Definition suma_totales (l : list Existencia) : Z :=
  foldr (λ e s, e_totalExistencias e + s) 0 l.

(** Category names are unique (the unique index behind the error 11000 of
    the category routes). *)
Definition nombres_unicos (db : BD) : Prop :=
  NoDup (cat_nombre <$> (map_to_list (categorias db)).*2).

(** The validator [min: 0] of [cantidad] holds of every product. *)
Definition existencias_validas (db : BD) : Prop :=
  map_Forall (λ _ p, 0 ≤ cantidad p) (productos db).

(** The total the groups of key [c] hold. *)
Definition total_en (c : Id) (gs : list Grupo) : Z :=
  foldr (λ g s, if decide (g_id g = c) then g_totalExistencias g + s else s)
        0 gs.

(** The stock of the documents of category [c]. *)
Definition suma_categoria (c : Id) (docs : list (Id * Producto)) : Z :=
  foldr (λ d s, if decide (categoriaID d.2 = c) then cantidad d.2 + s else s)
        0 docs.

(** A group becomes an output document when its category exists. *)
Definition resolver (cats : gmap positive Categoria) (g : Grupo)
    : option Existencia :=
  (λ k, mkExistencia (g_id g) (cat_nombre k) (g_totalExistencias g))
    <$> cats !! g_id g.

(** The total of the groups, and the stock of the documents, whose category
    exists. *)
Definition grupos_resueltos (cats : gmap positive Categoria)
    (gs : list Grupo) : Z :=
  foldr (λ g s, if cats !! g_id g is Some _ then g_totalExistencias g + s
                else s) 0 gs.

Definition docs_resueltos (cats : gmap positive Categoria)
    (docs : list (Id * Producto)) : Z :=
  foldr (λ d s, if cats !! categoriaID d.2 is Some _ then cantidad d.2 + s
                else s) 0 docs.

Definition suma_docs (docs : list (Id * Producto)) : Z :=
  foldr (λ d s, cantidad d.2 + s) 0 docs.

Definition docs_sin_categoria (cats : gmap positive Categoria)
    (docs : list (Id * Producto)) : Z :=
  foldr (λ d s, if cats !! categoriaID d.2 is Some _ then s
                else cantidad d.2 + s) 0 docs.

(** ** Databases of the examples *)

Definition lapiz : Producto := mkProducto "Lapiz" 3 4 1.
Definition goma : Producto := mkProducto "Goma" 2 10 1.

Definition tienda : BD :=
  mkBD {[ 1%positive := lapiz; 2%positive := goma ]}
       {[ 1%positive := mkCategoria "Papeleria" ]}
       [].

(** Products A, B of category X and C of category Y; the category Z has no
    product. *)
Definition almacen : BD :=
  mkBD {[ 1%positive := mkProducto "A" 10 5 1;
          2%positive := mkProducto "B" 20 3 1;
          3%positive := mkProducto "C" 30 2 2 ]}
       {[ 1%positive := mkCategoria "X";
          2%positive := mkCategoria "Y";
          3%positive := mkCategoria "Z" ]}
       [].

(** As [almacen], the category of A and B being named ["__proto__"]. *)
Definition almacen_proto : BD :=
  mkBD (productos almacen)
       {[ 1%positive := mkCategoria "__proto__";
          2%positive := mkCategoria "Y" ]}
       [].

(** As [almacen], with a product D whose category does not exist. *)
Definition almacen_huerfano : BD :=
  mkBD (<[ 4%positive := mkProducto "D" 40 7 9 ]> (productos almacen))
       (categorias almacen) [].

(** ** The other routes of [routes/index.js]

    These handlers have no loop: a [return res.redirect(..)] is the value of
    its branch. *)

(** The redirects of the stock and delete routes, one constructor per
    [res.redirect] of the source. *)
Inductive Redireccion : Type :=
| StockInvalido
    (* `/?err=El stock debe ser un número positivo.` *)
| SinProductoParaStock
    (* `/?err=Producto no encontrado para actualizar stock.` *)
| StockActualizado (n : string) (nuevoStock : Z)
    (* `/?msg=Stock de "${productoActualizado.nombre}" actualizado a
       ${nuevoStock}.` *)
| ErrorAlActualizarStock (e : Error)
    (* `/?err=Error al actualizar el stock: ${error.message}` *)
| ProductoNoEncontrado
    (* `/?err=Producto no encontrado.` *)
| ProductoEliminado (n : string)
    (* `/?msg=Producto "${productoEliminado.nombre}" eliminado
       correctamente.` *)
| ErrorAlEliminarProducto (e : Error)
    (* `/?err=Error al eliminar el producto: ${error.message}` *)
| CategoriaNoEncontrada
    (* `/?err=Categoría no encontrada.` *)
| CategoriaEliminada (n : string)
    (* `/categorias?msg=Categoría "${categoriaEliminada.nombre}" eliminada
       correctamente.` *)
| ErrorAlEliminarCategoria (e : Error).
    (* `/categorias?err=Error al eliminar la categoría: ${error.message}` *)

(** A product of [Producto.find().populate('categoriaID').lean()]: the
    category document takes the place of its id, [null] when there is
    none. *)
Record ProductoPoblado : Type := mkProductoPoblado {
  pp_id : Id;
  pp_producto : Producto;
  pp_categoria : option Categoria
}.

(** What the home route sends. *)
Inductive Pagina : Type :=
| Index (productos : list ProductoPoblado) (existencias : gmap string Z)
        (totalVendido : Z) (mensaje error : option string)
    (* res.render('index', { productos, existencias, totalVendido, mensaje,
       error }) *)
| ErrorAlCargar (e : Error).
    (* 500 'Error al cargar la página principal: ' + error.message *)

(** [x || null] on a query parameter: absent and empty give [null]. *)
Definition o_null (x : option string) : option string :=
  match x with
  | Some s => if decide (s = "") then None else Some s
  | None => None
  end.

(** [{ $group: { _id: null, totalGlobal: { $sum: '$totalVenta' } } }]: one
    document for all the sales, none when there is no sale. *)
Definition agregar_total (db : BD) : list Z :=
  match ventas db with
  | [] => []
  | vs => [foldl (λ s v, s + totalVenta v) 0 vs]
  end.

Definition poblar (db : BD) : list ProductoPoblado :=
  (λ d, mkProductoPoblado d.1 d.2 (categorias db !! categoriaID d.2))
    <$> map_to_list (productos db).

Definition borrar_producto (i : Id) (db : BD) : BD :=
  mkBD (delete i (productos db)) (categorias db) (ventas db).

Definition borrar_categoria (i : Id) (db : BD) : BD :=
  mkBD (productos db) (delete i (categorias db)) (ventas db).

Section OtrasRutas.

Variable falla : nat → bool.

(** [calcularTotalVendido] *)
Definition calcularTotalVendido : M Z :=
  intentar
    (resultado ← operacion falla (λ w, (Valor (agregar_total (bd w)), w));
     mret (match resultado with
           | totalGlobal :: _ => totalGlobal
           | [] => 0
           end))
    (λ _, mret 0).

(** [await Producto.find().populate('categoriaID').lean()] *)
Definition find_populate : M (list ProductoPoblado) :=
  operacion falla (λ w, (Valor (poblar (bd w)), w)).

(** GET / *)
Definition inicio (msg err : option string) : M Pagina :=
  intentar
    (productos ← find_populate;
     existenciasPorCategoria ← calcularExistenciasPorCategoria falla;
     totalVendido ← calcularTotalVendido;
     mret (Index productos (existenciasMap existenciasPorCategoria)
                 totalVendido (o_null msg) (o_null err)))
    (λ e, mret (ErrorAlCargar e)).

(** [await Producto.findByIdAndUpdate(i, { cantidad: c }, { new: true,
    runValidators: true })]: the validator [min: 0] runs on the update, the
    document as updated is returned, [null] when there is none. *)
Definition findByIdAndUpdate_cantidad (i : Id) (c : Z) : M (option Producto) :=
  if c <? 0 then lanzar ErrorValidacion
  else operacion falla (λ w,
         (Valor (con_cantidad c <$> productos (bd w) !! i),
          mkMundo (set_cantidad i c (bd w)) (sesion w) (reloj w))).

(** POST /productos/actualizar-stock/:id; [nuevoStock] is the result of
    [parseInt]: [None] is [NaN]. *)
Definition actualizarStock (productoId : Id) (nuevoStock : option Z)
    : M Redireccion :=
  match nuevoStock with
  | None => mret StockInvalido
  | Some n =>
      if n <? 0 then mret StockInvalido
      else
        intentar
          (productoActualizado ← findByIdAndUpdate_cantidad productoId n;
           match productoActualizado with
           | None => mret SinProductoParaStock
           | Some p => mret (StockActualizado (nombre p) n)
           end)
          (λ e, mret (ErrorAlActualizarStock e))
  end.

(** [await Producto.findByIdAndDelete(i)]: the document deleted, [null]
    when there is none. *)
Definition findByIdAndDelete_producto (i : Id) : M (option Producto) :=
  operacion falla (λ w,
    (Valor (productos (bd w) !! i),
     mkMundo (borrar_producto i (bd w)) (sesion w) (reloj w))).

(** POST /productos/eliminar/:id *)
Definition eliminarProducto (i : Id) : M Redireccion :=
  intentar
    (productoEliminado ← findByIdAndDelete_producto i;
     match productoEliminado with
     | None => mret ProductoNoEncontrado
     | Some p => mret (ProductoEliminado (nombre p))
     end)
    (λ e, mret (ErrorAlEliminarProducto e)).

(** [await Categoria.findByIdAndDelete(i)] *)
Definition findByIdAndDelete_categoria (i : Id) : M (option Categoria) :=
  operacion falla (λ w,
    (Valor (categorias (bd w) !! i),
     mkMundo (borrar_categoria i (bd w)) (sesion w) (reloj w))).

(** POST /categorias/eliminar/:id *)
Definition eliminarCategoria (i : Id) : M Redireccion :=
  intentar
    (categoriaEliminada ← findByIdAndDelete_categoria i;
     match categoriaEliminada with
     | None => mret CategoriaNoEncontrada
     | Some k => mret (CategoriaEliminada (cat_nombre k))
     end)
    (λ e, mret (ErrorAlEliminarCategoria e)).

End OtrasRutas.

(** A request whose handler ends with a value: what it sends, if anything,
    and the committed database it leaves. *)
Definition correr_en {A} (m : M A) (db : BD) : option A * BD :=
  match m (mkMundo db None 0) with
  | (Valor a, w) => (Some a, bd w)
  | (_, w) => (None, bd w)
  end.

(** *** The requests the router serves *)

Inductive Peticion : Type :=
| PostFinalizar (cart : list Item)
| PostVender (i : Id) (cantidad : option Z)
| PostActualizarStock (i : Id) (cantidad : option Z)
| PostEliminarProducto (i : Id)
| PostEliminarCategoria (i : Id)
| GetInicio (msg err : option string).

(** The database a request leaves, the store failing as [falla] says. *)
Definition atender (falla : nat → bool) (pet : Peticion) (db : BD) : BD :=
  match pet with
  | PostFinalizar cart => (correr (finalizarVenta falla cart) db).2
  | PostVender i q => (correr (venderProducto falla i q) db).2
  | PostActualizarStock i n => (correr_en (actualizarStock falla i n) db).2
  | PostEliminarProducto i => (correr_en (eliminarProducto falla i) db).2
  | PostEliminarCategoria i => (correr_en (eliminarCategoria falla i) db).2
  | GetInicio msg err => (correr_en (inicio falla msg err) db).2
  end.

(** Requests served one after the other, each with the failures of its
    own. *)
Definition servir (l : list ((nat → bool) * Peticion)) (db : BD) : BD :=
  foldl (λ d x, atender x.1 x.2 d) db l.

Definition es_carrito (pet : Peticion) : bool :=
  match pet with PostFinalizar _ => true | _ => false end.

(** The units of the product [i] in the ledger. *)
Definition unidades_en (i : Id) (l : list ProductoVendido) : Z :=
  foldr (λ pv s, if decide (productoID pv = i) then pv_cantidad pv + s else s)
        0 l.

Definition unidades_vendidas (i : Id) (vs : list Venta) : Z :=
  foldr (λ v s, unidades_en i (productosVendidos v) + s) 0 vs.

(** The sum of the totals of the ledger. *)
Definition suma_ventas (vs : list Venta) : Z :=
  foldr (λ v s, totalVenta v + s) 0 vs.

(** ** The later revision of the routes, in [models/Producto.js]

    The file carries a later revision of the router, where the stock and
    quick sale routes answer with redirects. *)

Module Rev2.

Inductive Redireccion : Type :=
| StockInvalido                 (* `/?err=Stock inválido` *)
| StockActualizado              (* `/?msg=Stock actualizado` *)
| ErrorStock (e : Error)        (* `/?err=Error: ${error.message}` *)
| CantidadInvalida              (* `/?err=Cantidad inválida` *)
| StockInsuficiente             (* `/?err=Stock insuficiente` *)
| VentaRegistrada (total : Z)
    (* `/?msg=Venta registrada. Total: $${total.toFixed(2)}` *)
| ErrorVenta (e : Error).       (* `/?err=Error venta: ${error.message}` *)

Section Rutas.

Variable falla : nat → bool.

(** POST /productos/actualizar-stock/:id: the update runs no validator and
    its result is not looked at. *)
Definition actualizarStock (productoId : Id) (nuevoStock : option Z)
    : M Redireccion :=
  match nuevoStock with
  | None => mret StockInvalido
  | Some n =>
      if n <? 0 then mret StockInvalido
      else
        intentar
          (escribir falla (set_cantidad productoId n);;
           mret StockActualizado)
          (λ e, mret (ErrorStock e))
  end.

(** POST /productos/vender/:id *)
Definition venderProducto (productoId : Id) (cantidadVenta : option Z)
    : M Redireccion :=
  match cantidadVenta with
  | None => mret CantidadInvalida
  | Some q =>
      if q <=? 0 then mret CantidadInvalida
      else
        intentar
          (producto ← findById falla productoId;
           match producto with
           | None => mret StockInsuficiente
           | Some p =>
               if cantidad p <? q then mret StockInsuficiente
               else
                 let total := precio p * q in
                 escribir falla (insertar_venta
                   (mkVenta [mkProductoVendido productoId (nombre p) (precio p)
                               q total] total));;
                 guardarProducto falla productoId
                   (con_cantidad (cantidad p - q) p);;
                 mret (VentaRegistrada total)
           end)
          (λ e, mret (ErrorVenta e))
  end.

End Rutas.

End Rev2.

(** * Proofs *)

(** ** The loops of the checkout *)

Section Lemas.

Variable falla : nat → bool.

(** The validation loop, by cases of its outcome: it never writes; it
    completes exactly on the carts whose lines are all valid, with the sold
    items in cart order; it answers with the error of the first line that
    is not valid; it throws when a read fails after valid lines. *)
Lemma validar_casos cart : ∀ pvs tot w r w',
  validar falla cart pvs tot w = (r, w') →
  bd w' = bd w ∧ sesion w' = sesion w ∧
  match r with
  | Valor x =>
      Forall (linea_valida (bd w)) cart ∧
      x = (pvs ++ vendidos (bd w) cart,
           tot + suma_subtotales (vendidos (bd w) cart)) ∧
      reloj w' = (reloj w + length cart)%nat ∧
      (∀ k, (reloj w ≤ k < reloj w + length cart)%nat → falla k = false)
  | Responde resp =>
      ∃ previas item resto,
        cart = previas ++ item :: resto ∧
        Forall (linea_valida (bd w)) previas ∧
        ¬ linea_valida (bd w) item ∧
        resp = error_linea (bd w) item ∧
        (∀ k, (reloj w ≤ k < reloj w + S (length previas))%nat → falla k = false)
  | Lanza e =>
      ∃ previas resto,
        cart = previas ++ resto ∧ resto ≠ [] ∧
        Forall (linea_valida (bd w)) previas ∧
        falla (reloj w + length previas)%nat = true
  end.
Proof.
  induction cart as [|item resto IH]; intros pvs tot w r w' Hrun.
  - inversion Hrun; subst. split; [done|]. split; [done|].
    split; [constructor|]. split; [|split].
    + unfold vendidos; simpl. by rewrite app_nil_r, Z.add_0_r.
    + simpl; lia.
    + intros k Hk; simpl in Hk; lia.
  - cbn [validar] in Hrun. unfold mbind, M_bind, findById, operacion in Hrun.
    destruct (falla (reloj w)) eqn:Hf.
    { inversion Hrun; subst. repeat split; try done.
      exists [], (item :: resto). repeat split; try done.
      simpl. by rewrite Nat.add_0_r. }
    destruct (productos (bd (avanzar w)) !! item_id item) as [p|] eqn:Hp;
      simpl in Hp.
    2:{ inversion Hrun; subst. repeat split; try done.
        exists [], item, resto. repeat split; try done.
        - intros (p' & Hp' & _). congruence.
        - unfold error_linea. by rewrite Hp.
        - intros k Hk. simpl in Hk. by replace k with (reloj w) by lia. }
    destruct (cantidad p <? item_cantidad item) eqn:Hlt.
    { inversion Hrun; subst. repeat split; try done.
      exists [], item, resto. repeat split; try done.
      - intros (p' & Hp' & Hle). apply Z.ltb_lt in Hlt.
        assert (p' = p) by congruence. subst. lia.
      - unfold error_linea. by rewrite Hp.
      - intros k Hk. simpl in Hk. by replace k with (reloj w) by lia. }
    apply Z.ltb_ge in Hlt.
    apply IH in Hrun as (Hbd & Hses & Hr). simpl in Hbd, Hses.
    split; [done|]. split; [done|].
    assert (Hval : linea_valida (bd w) item) by (exists p; done).
    destruct r as [x|e|resp]; simpl in Hr.
    + destruct Hr as (Hall & Hx & Hreloj & Hno).
      repeat split.
      * by constructor.
      * subst x. unfold vendidos at 1 2; simpl. rewrite Hp; simpl.
        fold (vendidos (bd w) resto). rewrite <- app_assoc; simpl.
        f_equal. unfold vendido; simpl. lia.
      * simpl; lia.
      * intros k Hk. simpl in Hk.
        destruct (decide (k = reloj w)) as [->|]; [done|].
        apply Hno; lia.
    + destruct Hr as (previas & rest' & Hcart & Hnil & Hprev & Hfk).
      exists (item :: previas), rest'. repeat split; try done.
      * by rewrite Hcart.
      * by constructor.
      * simpl in *. by replace (reloj w + S (length previas))%nat
          with (S (reloj w) + length previas)%nat by lia.
    + destruct Hr as (previas & it & rest' & Hcart & Hprev & Hbad & Hresp & Hno).
      exists (item :: previas), it, rest'. repeat split; try done.
      * by rewrite Hcart.
      * by constructor.
      * intros k Hk. simpl in Hk.
        destruct (decide (k = reloj w)) as [->|]; [done|].
        apply Hno; lia.
Qed.

(** The loop of decrements, by cases of its outcome: it touches only the
    working copy of the transaction. *)
Lemma descontar_casos cart : ∀ w t r w',
  sesion w = Some t →
  descontar falla cart w = (r, w') →
  bd w' = bd w ∧
  match r with
  | Valor _ =>
      sesion w' = Some (descuentos cart t) ∧
      reloj w' = (reloj w + length cart)%nat ∧
      (∀ k, (reloj w ≤ k < reloj w + length cart)%nat → falla k = false)
  | Lanza e =>
      ∃ k, (reloj w ≤ k < reloj w + length cart)%nat ∧ falla k = true ∧
           (∀ j, (reloj w ≤ j < k)%nat → falla j = false) ∧
           reloj w' = S k
  | Responde _ => False
  end.
Proof.
  induction cart as [|item resto IH]; intros w t r w' Hses Hrun.
  - inversion Hrun; subst. split; [done|]. split; [done|]. split.
    + simpl; lia.
    + intros k Hk; simpl in Hk; lia.
  - cbn [descontar] in Hrun.
    unfold mbind, M_bind, escribir_en_sesion, operacion in Hrun.
    destruct (falla (reloj w)) eqn:Hf.
    { inversion Hrun; subst. split; [done|].
      exists (reloj w). split; [simpl; lia|]. split; [done|].
      split; [intros j Hj; lia | done]. }
    simpl in Hrun. rewrite Hses in Hrun.
    eapply IH in Hrun as (Hbd & Hr); [|done]. simpl in Hbd.
    split; [done|].
    destruct r as [x|e|resp]; simpl in Hr; [| |done].
    + destruct Hr as (Hs & Hreloj & Hno). repeat split; [done | simpl; lia |].
      intros k Hk. simpl in Hk.
      destruct (decide (k = reloj w)) as [->|]; [done|].
      apply Hno; lia.
    + destruct Hr as (k & Hk & Hfk & Hprim & Hreloj). simpl in *.
      exists k. split; [lia|]. split; [done|]. split; [|done].
      intros j Hj. destruct (decide (j = reloj w)) as [->|]; [done|].
      apply Hprim; lia.
Qed.

End Lemas.

(** ** The routes, by cases *)

Section Casos.

Variable falla : nat → bool.

(** The checkout, by cases of its outcome. *)
Lemma finalizarVenta_casos cart db r db' :
  correr (finalizarVenta falla cart) db = (r, db') →
  (cart = [] ∧ r = Some CarritoVacio ∧ db' = db) ∨
  (∃ previas item resto,
      cart = previas ++ item :: resto ∧
      Forall (linea_valida db) previas ∧ ¬ linea_valida db item ∧
      (∀ k, (k ≤ length previas)%nat → falla k = false) ∧
      r = Some (error_linea db item) ∧ db' = db) ∨
  (cart ≠ [] ∧
      (∃ previas resto,
          cart = previas ++ resto ∧ Forall (linea_valida db) previas ∧
          falla (length previas) = true) ∧
      r = Some ErrorInterno ∧ db' = db) ∨
  (cart ≠ [] ∧ Forall (linea_valida db) cart ∧
      (∀ k, (k ≤ length cart)%nat → falla k = false) ∧
      (∃ k, (length cart < k ≤ 2 * length cart + 2)%nat ∧ falla k = true ∧
            (∀ j, (j < k)%nat → falla j = false) ∧
            r = Some (if falla (S k) then ErrorInterno else ErrorTransaccion)) ∧
      db' = db) ∨
  (cart ≠ [] ∧ Forall (linea_valida db) cart ∧
      (∀ k, (k ≤ 2 * length cart + 2)%nat → falla k = false) ∧
      r = Some (VentaFinalizada (totalVenta (venta_carrito db cart))) ∧
      db' = bd_vendida db cart).
Proof.
  unfold correr, finalizarVenta. case_bool_decide as Hvacio.
  { intros [= <- <-]. by left. }
  intros Hrun. right. revert Hrun. unfold intentar at 1. unfold mbind at 1, M_bind at 1.
  destruct (validar falla cart [] 0 (mkMundo db None 0)) as [rv w1] eqn:Hval.
  apply validar_casos in Hval as (Hbd & Hses & Hrv). simpl in Hbd, Hses, Hrv.
  destruct w1 as [db1 s1 n1]; simpl in *; subst db1 s1.
  destruct rv as [[pvs tot]|e|resp].
  - destruct Hrv as (Hall & [= -> ->] & -> & Hno).
    unfold mbind at 1, M_bind at 1, startSession at 1, operacion at 1; simpl.
    destruct (falla (length cart)) eqn:Hf0.
    { intros [= <- <-]. right; left. repeat split; try done.
      exists cart, []. by rewrite app_nil_r. }
    assert (Hno1 : ∀ k, (k ≤ length cart)%nat → falla k = false).
    { intros k Hk. destruct (decide (k = length cart)) as [->|]; [done|].
      apply Hno; lia. }
    unfold intentar at 1. unfold mbind at 1, M_bind at 1.
    destruct (descontar falla cart (mkMundo db (Some db) (S (length cart))))
      as [rd w2] eqn:Hdesc.
    eapply descontar_casos in Hdesc as (Hbd2 & Hrd); [|done].
    simpl in Hbd2, Hrd. destruct w2 as [db2 s2 n2]; simpl in *; subst db2.
    destruct rd as [[]|e|resp]; [| |done].
    + destruct Hrd as (-> & -> & Hno2).
      unfold mbind at 1, M_bind at 1, escribir_en_sesion at 1, operacion at 1.
      simpl.
      destruct (falla (S (length cart + length cart))) eqn:Hf1.
      { unfold mbind, M_bind, abortTransaction, operacion; simpl.
        intros Hrun. right; right; left. repeat split; try done.
        exists (S (length cart + length cart)).
        split; [lia|]. split; [done|]. split.
        - intros j Hj. destruct (decide (j ≤ length cart)%nat);
            [by apply Hno1 | apply Hno2; lia].
        - destruct (falla (S (S (length cart + length cart))));
            by injection Hrun as <- <-.
        - destruct (falla (S (S (length cart + length cart))));
            by injection Hrun as <- <-. }
      unfold mbind at 1, M_bind at 1, commitTransaction at 1, operacion at 1.
      simpl.
      destruct (falla (S (S (length cart + length cart)))) eqn:Hf2.
      { unfold mbind, M_bind, abortTransaction, operacion; simpl.
        intros Hrun. right; right; left. repeat split; try done.
        exists (S (S (length cart + length cart))).
        split; [lia|]. split; [done|]. split.
        - intros j Hj. destruct (decide (j ≤ length cart)%nat);
            [by apply Hno1|].
          destruct (decide (j = S (length cart + length cart))) as [->|];
            [done | apply Hno2; lia].
        - destruct (falla (S (S (S (length cart + length cart)))));
            by injection Hrun as <- <-.
        - destruct (falla (S (S (S (length cart + length cart)))));
            by injection Hrun as <- <-. }
      simpl. intros [= <- <-]. right; right; right. repeat split; try done.
      intros k Hk.
      destruct (decide (k ≤ length cart)%nat); [by apply Hno1|].
      destruct (decide (k = S (length cart + length cart))) as [->|]; [done|].
      destruct (decide (k = S (S (length cart + length cart)))) as [->|];
        [done|].
      apply Hno2; lia.
    + destruct Hrd as (k & Hk & Hfk & Hprim & ->).
      unfold mbind, M_bind, abortTransaction, operacion; simpl.
      intros Hrun. right; right; left. repeat split; try done.
      * exists k. split; [lia|]. split; [done|]. split.
        -- intros j Hj. destruct (decide (j ≤ length cart)%nat);
             [by apply Hno1 | apply Hprim; lia].
        -- destruct (falla (S k)); by injection Hrun as <- <-.
      * destruct (falla (S k)); by injection Hrun as <- <-.
  - destruct Hrv as (previas & resto & -> & _ & Hprev & Hfk). simpl.
    intros [= <- <-]. right; left. repeat split; try done.
    exists previas, resto. done.
  - destruct Hrv as (previas & item & resto & -> & Hprev & Hbad & -> & Hno).
    simpl. intros [= <- <-]. left.
    exists previas, item, resto. repeat split; try done.
    intros k Hk. apply Hno; lia.
Qed.

End Casos.

Section CasosVentaRapida.

Variable falla : nat → bool.

(** The quick sale, by cases of its outcome.  The sale document and the
    stock are two writes: when the second one fails, because the store fails
    or because the product does not pass its validators, the first one
    stays. *)
Lemma venderProducto_casos i cq db r db' :
  correr (venderProducto falla i cq) db = (r, db') →
  ((cq = None ∨ ∃ q, cq = Some q ∧ q ≤ 0) ∧
      r = Some CantidadInvalida ∧ db' = db) ∨
  ∃ q, cq = Some q ∧ 0 < q ∧
    ((falla 0%nat = true ∧ r = Some (ErrorInternoCon ErrorAlmacen) ∧ db' = db) ∨
     (falla 0%nat = false ∧ productos db !! i = None ∧
        r = Some NoEncontrado ∧ db' = db) ∨
     ∃ p, falla 0%nat = false ∧ productos db !! i = Some p ∧
       ((cantidad p < q ∧ r = Some (StockInsuficiente (cantidad p)) ∧ db' = db) ∨
        (q ≤ cantidad p ∧ falla 1%nat = true ∧
           r = Some (ErrorInternoCon ErrorAlmacen) ∧ db' = db) ∨
        (q ≤ cantidad p ∧ falla 1%nat = false ∧
           (documento_valido (con_cantidad (cantidad p - q) p) = true →
            falla 2%nat = true) ∧
           r = Some (ErrorInternoCon
                       (if documento_valido (con_cantidad (cantidad p - q) p)
                        then ErrorAlmacen else ErrorValidacion)) ∧
           db' = insertar_venta (venta_rapida i q p) db) ∨
        (q ≤ cantidad p ∧ falla 1%nat = false ∧
           (falla 2%nat = false ∧
            documento_valido (con_cantidad (cantidad p - q) p) = true) ∧
           r = Some (VentaRegistrada q i (con_cantidad (cantidad p - q) p)) ∧
           db' = set_cantidad i (cantidad p - q)
                   (insertar_venta (venta_rapida i q p) db)))).
Proof.
  unfold correr, venderProducto.
  destruct cq as [q|]; [|intros [= <- <-]; left; split; [by left | done]].
  destruct (q <=? 0) eqn:Hq.
  { apply Z.leb_le in Hq. intros [= <- <-]. left. split; [right; eauto | done]. }
  apply Z.leb_gt in Hq. intros Hrun. right. exists q.
  split; [done|]. split; [done|]. revert Hrun.
  unfold intentar, mbind, M_bind, findById, operacion; simpl.
  destruct (falla 0%nat) eqn:Hf0; simpl.
  { intros [= <- <-]. by left. }
  intros Hrun. right. revert Hrun.
  destruct (productos db !! i) as [p|] eqn:Hp; simpl.
  2:{ intros [= <- <-]. by left. }
  intros Hrun. right. exists p. split; [done|]. split; [done|]. revert Hrun.
  destruct (cantidad p <? q) eqn:Hlt; simpl.
  { apply Z.ltb_lt in Hlt. intros [= <- <-]. by left. }
  apply Z.ltb_ge in Hlt.
  unfold escribir, operacion; simpl.
  destruct (falla 1%nat) eqn:Hf1; simpl.
  { intros [= <- <-]. right; left. done. }
  unfold guardarProducto.
  destruct (documento_valido (con_cantidad (cantidad p - q) p)) eqn:Hdoc.
  2:{ unfold lanzar; simpl. intros [= <- <-]. right; right; left. done. }
  unfold escribir, operacion; simpl.
  destruct (falla 2%nat) eqn:Hf2; simpl.
  { intros [= <- <-]. right; right; left. done. }
  intros [= <- <-]. right; right; right. done.
Qed.

End CasosVentaRapida.

(** ** The effect of the decrements *)

Lemma con_cantidad_id p : con_cantidad (cantidad p) p = p.
Proof. by destruct p. Qed.

Lemma descuentos_categorias cart : ∀ db,
  categorias (descuentos cart db) = categorias db.
Proof.
  induction cart as [|item resto IH]; intros db; [done|].
  change (descuentos (item :: resto) db)
    with (descuentos resto
            (inc_cantidad (item_id item) (- item_cantidad item) db)).
  by rewrite IH.
Qed.

Lemma descuentos_ventas cart : ∀ db, ventas (descuentos cart db) = ventas db.
Proof.
  induction cart as [|item resto IH]; intros db; [done|].
  change (descuentos (item :: resto) db)
    with (descuentos resto
            (inc_cantidad (item_id item) (- item_cantidad item) db)).
  by rewrite IH.
Qed.

(** Every product loses what the cart asks of it over all its lines, and
    nothing checks that it has that much. *)
Lemma descuentos_productos cart : ∀ db i,
  productos (descuentos cart db) !! i =
  (λ p, con_cantidad (cantidad p - pedido i cart) p) <$> productos db !! i.
Proof.
  induction cart as [|item resto IH]; intros db i.
  - simpl. destruct (productos db !! i) as [p|]; simpl; [|done].
    by rewrite Z.sub_0_r, con_cantidad_id.
  - change (descuentos (item :: resto) db)
      with (descuentos resto
              (inc_cantidad (item_id item) (- item_cantidad item) db)).
    rewrite IH. unfold inc_cantidad; simpl. rewrite lookup_alter.
    unfold pedido; simpl. fold (pedido i resto).
    destruct (decide (item_id item = i)) as [<-|Hne]; [|done].
    destruct (productos db !! item_id item) as [p|] eqn:Hp; simpl; [|done].
    unfold con_cantidad; simpl. do 2 f_equal. lia.
Qed.

Lemma vendidos_validos db cart :
  Forall (linea_valida db) cart →
  Forall2 (λ item pv, ∃ p, productos db !! item_id item = Some p ∧
                           pv = vendido item p) cart (vendidos db cart).
Proof.
  induction 1 as [|item resto (p & Hp & Hle) _ IH]; [constructor|].
  unfold vendidos; simpl. rewrite Hp; simpl. constructor; [eauto|done].
Qed.

Lemma vendidos_subtotal db cart :
  Forall (λ pv, subtotal pv = pv_cantidad pv * precioUnitario pv)
         (vendidos db cart).
Proof.
  induction cart as [|item resto IH]; [constructor|].
  unfold vendidos; simpl.
  destruct (productos db !! item_id item) as [p|]; simpl; [|done].
  by constructor.
Qed.

(** In a cart, the first line that is not valid is determined. *)
Lemma primera_invalida_unica db (l1 l2 r1 r2 : list Item) (i1 i2 : Item) :
  l1 ++ i1 :: r1 = l2 ++ i2 :: r2 →
  Forall (linea_valida db) l1 → ¬ linea_valida db i1 →
  Forall (linea_valida db) l2 → ¬ linea_valida db i2 →
  l1 = l2 ∧ i1 = i2.
Proof.
  revert l2. induction l1 as [|a l1 IH]; intros [|b l2] Heq H1 Hb1 H2 Hb2;
    simpl in Heq.
  - by injection Heq as -> _.
  - injection Heq as -> _. by inversion H2.
  - injection Heq as -> _. by inversion H1.
  - injection Heq as -> Heq. inversion H1; inversion H2; subst.
    destruct (IH l2) as [-> ->]; done.
Qed.

(** Valid lines cannot reach past a line that is not valid. *)
Lemma validas_antes_de_invalida db (l1 r1 l2 r2 : list Item) (i1 : Item) :
  l1 ++ i1 :: r1 = l2 ++ r2 →
  ¬ linea_valida db i1 → Forall (linea_valida db) l2 →
  (length l2 ≤ length l1)%nat.
Proof.
  revert l2. induction l1 as [|a l1 IH]; intros [|b l2] Heq Hb1 H2;
    simpl in *; try lia.
  - injection Heq as -> _. by inversion H2.
  - injection Heq as -> Heq. apply Forall_cons in H2 as [_ H2].
    specialize (IH l2 Heq Hb1 H2). lia.
Qed.

(** ** Checkout: success and failure *)

Section Carrito.

Variable falla : nat → bool.

(** A non-empty cart of valid lines, with a store that does not fail, is
    sold. *)
Lemma finalizarVenta_exito db cart :
  cart ≠ [] → Forall (linea_valida db) cart →
  (∀ k, (k ≤ 2 * length cart + 2)%nat → falla k = false) →
  correr (finalizarVenta falla cart) db =
    (Some (VentaFinalizada (totalVenta (venta_carrito db cart))),
     bd_vendida db cart).
Proof.
  intros Hne Hall Hno.
  destruct (correr (finalizarVenta falla cart) db) as [r db'] eqn:Hrun.
  apply finalizarVenta_casos in Hrun
    as [(-> & _)|[(previas & item & resto & -> & _ & Hbad & _)
       |[(_ & (previas & resto & -> & _ & Hfk) & _)
       |[(_ & _ & _ & (k & Hk & Hfk & _) & _)
       |(_ & _ & _ & -> & ->)]]]].
  - done.
  - exfalso. apply Hbad.
    apply Forall_app in Hall as [_ Hall]. by inversion Hall.
  - rewrite Hno in Hfk; [done | rewrite length_app; lia].
  - rewrite Hno in Hfk; [done | lia].
  - done.
Qed.

(** A cart is rejected at its first line that is not valid, with the error
    of that line, when the reads up to it do not fail. *)
Lemma finalizarVenta_invalida db previas item resto :
  Forall (linea_valida db) previas → ¬ linea_valida db item →
  (∀ k, (k ≤ length previas)%nat → falla k = false) →
  correr (finalizarVenta falla (previas ++ item :: resto)) db
    = (Some (error_linea db item), db).
Proof.
  intros Hprev Hbad Hno.
  destruct (correr (finalizarVenta falla (previas ++ item :: resto)) db)
    as [r db'] eqn:Hrun.
  apply finalizarVenta_casos in Hrun
    as [(Hnil & _)|[(previas' & item' & resto' & Heq & Hprev' & Hbad' & _ & -> & ->)
       |[(_ & (previas' & resto' & Heq & Hprev' & Hfj) & _)
       |[(_ & Hall & _)|(_ & Hall & _)]]]].
  - by destruct previas.
  - by destruct (primera_invalida_unica db _ _ _ _ _ _ Heq) as [<- <-].
  - rewrite Hno in Hfj; [done|]. by eapply validas_antes_de_invalida.
  - exfalso. apply Hbad. apply Forall_app in Hall as [_ Hall]. by inversion Hall.
  - exfalso. apply Hbad. apply Forall_app in Hall as [_ Hall]. by inversion Hall.
Qed.

End Carrito.

Lemma error_linea_estado db item : estado (error_linea db item) ≠ 200%nat.
Proof. unfold error_linea. by destruct (productos db !! item_id item). Qed.

(** With two lines for the same product, the checkout compares each line
    with the stock, never their sum. *)
Lemma finalizarVenta_dos_lineas falla db i p q1 q2 :
  (∀ k, falla k = false) → productos db !! i = Some p →
  estado <$> (correr (finalizarVenta falla [mkItem i q1; mkItem i q2]) db).1
    = Some 200%nat
  ↔ q1 ≤ cantidad p ∧ q2 ≤ cantidad p.
Proof.
  intros Hno Hp. split.
  - destruct (correr _ db) as [r db'] eqn:Hrun. simpl. intros Hest.
    apply finalizarVenta_casos in Hrun
      as [(? & _)|[(previas & item & resto & _ & _ & _ & _ & -> & _)
         |[(_ & _ & -> & _)|[(_ & _ & _ & (k & _ & _ & _ & ->) & _)
         |(_ & Hall & _)]]]];
      try done.
    + simpl in Hest. injection Hest as Hest.
      by apply error_linea_estado in Hest.
    + simpl in Hest. by destruct (falla (S k)).
    + inversion Hall as [|? ? (p1 & Hp1 & Hle1) Hall']; subst.
      inversion Hall' as [|? ? (p2 & Hp2 & Hle2) _]; subst.
      simpl in *. by simplify_eq.
  - intros [H1 H2]. rewrite finalizarVenta_exito; [done|done| |by intros].
    repeat constructor; by exists p.
Qed.

(** ** All or nothing, and the sign of the stock *)

(** The checkout writes inside a transaction: the database it leaves is the
    one it found, or the one with the sale and all its decrements. *)
Lemma finalizarVenta_todo_o_nada falla cart db r db' :
  correr (finalizarVenta falla cart) db = (r, db') →
  db' = db ∨
  r = Some (VentaFinalizada (totalVenta (venta_carrito db cart))) ∧
  db' = bd_vendida db cart.
Proof.
  intros Hrun.
  apply finalizarVenta_casos in Hrun
    as [(_ & _ & ->)|[(_ & _ & _ & _ & _ & _ & _ & _ & ->)
       |[(_ & _ & _ & ->)|[(_ & _ & _ & _ & ->)
       |(_ & _ & _ & -> & ->)]]]]; auto.
Qed.

Lemma existencias_validas_set_cantidad i c db :
  existencias_validas db → 0 ≤ c → existencias_validas (set_cantidad i c db).
Proof.
  intros Hval Hc j p. unfold set_cantidad; simpl. rewrite lookup_alter.
  destruct (decide (i = j)) as [<-|]; [|apply Hval].
  destruct (productos db !! i); simpl; [|done]. by intros [= <-].
Qed.

(** The quick sale keeps every stock at 0 or more, whatever the store
    does: it writes the stock it has compared with the quantity. *)
Lemma venderProducto_existencias_validas falla i cq db r db' :
  existencias_validas db →
  correr (venderProducto falla i cq) db = (r, db') →
  existencias_validas db'.
Proof.
  intros Hval Hrun.
  apply venderProducto_casos in Hrun
    as [(_ & _ & ->)|(q & _ & _ & [(_ & _ & ->)|[(_ & _ & _ & ->)
       |(p & _ & _ & [(_ & _ & ->)|[(_ & _ & _ & ->)|[(_ & _ & _ & _ & ->)
       |(Hle & _ & _ & _ & ->)]]])]])]; try done.
  apply existencias_validas_set_cantidad; [done | lia].
Qed.

(** The checkout keeps every stock at 0 or more when no product is asked,
    over all the lines of the cart, for more than it has. *)
Lemma finalizarVenta_existencias_validas falla cart db r db' :
  existencias_validas db →
  (∀ i p, productos db !! i = Some p → pedido i cart ≤ cantidad p) →
  correr (finalizarVenta falla cart) db = (r, db') →
  existencias_validas db'.
Proof.
  intros Hval Hped Hrun.
  apply finalizarVenta_todo_o_nada in Hrun as [->|[_ ->]]; [done|].
  intros i p. unfold bd_vendida, insertar_venta; simpl.
  rewrite descuentos_productos.
  destruct (productos db !! i) as [p0|] eqn:Hp0; simpl; [|done].
  intros [= <-]. simpl. specialize (Hped i p0 Hp0). lia.
Qed.

(** ** The aggregation pipeline *)

Lemma total_en_acumular c' c n gs :
  total_en c' (acumular c n gs) =
  total_en c' gs + (if decide (c = c') then n else 0).
Proof.
  induction gs as [|g gs IH]; simpl.
  - destruct (decide (c = c')); lia.
  - destruct (decide (g_id g = c)) as [Hg|Hg]; simpl.
    + destruct (decide (c = c')) as [<-|Hc].
      * rewrite decide_True by done. lia.
      * rewrite decide_False by congruence. lia.
    + rewrite IH. destruct (decide (g_id g = c')); lia.
Qed.

Lemma ids_acumular c' c n gs :
  c' ∈ g_id <$> acumular c n gs ↔ c' = c ∨ c' ∈ g_id <$> gs.
Proof.
  induction gs as [|g gs IH]; simpl.
  - rewrite list_elem_of_singleton. split; [by left|].
    intros [?|Hin]; [done | by inversion Hin].
  - destruct (decide (g_id g = c)) as [Hg|Hg]; simpl.
    + rewrite !elem_of_cons. split.
      * intros [?|?]; [by left | right; by right].
      * intros [->|[->|?]]; [by left | by left | by right].
    + rewrite !elem_of_cons, IH. split.
      * intros [?|[?|?]]; [right; by left | by left | right; by right].
      * intros [?|[?|?]]; [right; by left | by left | right; by right].
Qed.

Lemma NoDup_acumular c n gs :
  NoDup (g_id <$> gs) → NoDup (g_id <$> acumular c n gs).
Proof.
  induction gs as [|g gs IH]; simpl; intros Hnd.
  - apply NoDup_singleton.
  - apply NoDup_cons in Hnd as [Hnotin Hnd].
    destruct (decide (g_id g = c)) as [Hg|Hg]; simpl.
    + apply NoDup_cons. by rewrite <- Hg.
    + apply NoDup_cons. split; [|by apply IH].
      rewrite ids_acumular. intros [?|?]; done.
Qed.

Lemma total_en_fuera c gs : c ∉ g_id <$> gs → total_en c gs = 0.
Proof.
  induction gs as [|g gs IH]; simpl; [done|].
  rewrite not_elem_of_cons. intros [Hne Hnotin].
  rewrite decide_False by done. by apply IH.
Qed.

Lemma total_en_elem g gs :
  NoDup (g_id <$> gs) → g ∈ gs → total_en (g_id g) gs = g_totalExistencias g.
Proof.
  induction gs as [|g' gs IH]; simpl; intros Hnd Hin; [by inversion Hin|].
  apply NoDup_cons in Hnd as [Hnotin Hnd].
  apply elem_of_cons in Hin as [->|Hin].
  - rewrite decide_True by done. rewrite total_en_fuera by done. lia.
  - rewrite decide_False.
    + by apply IH.
    + intros Heq. apply Hnotin. rewrite Heq. by apply list_elem_of_fmap_2.
Qed.

(** The stage [$group], from any groups already built. *)
Lemma group_total c docs : ∀ gs,
  total_en c (foldl paso_group gs docs)
  = total_en c gs + suma_categoria c docs.
Proof.
  induction docs as [|d docs IH]; intros gs; simpl; [lia|].
  rewrite IH. unfold paso_group. rewrite total_en_acumular.
  destruct (decide (categoriaID d.2 = c)); lia.
Qed.

Lemma group_ids c docs : ∀ gs,
  c ∈ g_id <$> foldl paso_group gs docs
  ↔ c ∈ g_id <$> gs ∨ ∃ d, d ∈ docs ∧ categoriaID d.2 = c.
Proof.
  induction docs as [|d docs IH]; intros gs; simpl.
  - split; [by left|]. intros [?|(d & Hd & _)]; [done | by inversion Hd].
  - rewrite IH. unfold paso_group at 1. rewrite ids_acumular. split.
    + intros [[->|?]|(d' & Hd' & Hc)]; [right|by left|right].
      * exists d. split; [left | done].
      * exists d'. split; [by right | done].
    + intros [?|(d' & Hd' & Hc)]; [left; by right|].
      apply elem_of_cons in Hd' as [->|Hd']; [left; by left|].
      right. eauto.
Qed.

Lemma group_NoDup docs : ∀ gs,
  NoDup (g_id <$> gs) →
  NoDup (g_id <$> foldl paso_group gs docs).
Proof.
  induction docs as [|d docs IH]; intros gs Hnd; simpl; [done|].
  apply IH. by apply NoDup_acumular.
Qed.

Lemma existencias_de_suma c db :
  existencias_de c db = suma_categoria c (map_to_list (productos db)).
Proof.
  unfold existencias_de. rewrite map_fold_foldr.
  induction (map_to_list (productos db)) as [|[i p] docs IH]; [done|].
  simpl. by rewrite IH.
Qed.

(** [$lookup], [$unwind] and [$project] keep the groups whose category
    exists, and only those. *)
Lemma agregar_existencias_omap db :
  agregar_existencias db =
  omap (resolver (categorias db)) (etapa_group (map_to_list (productos db))).
Proof.
  unfold agregar_existencias.
  induction (etapa_group (map_to_list (productos db))) as [|g gs IH]; [done|].
  rewrite fmap_cons, bind_cons, fmap_app, IH. simpl.
  unfold resolver at 2, etapa_lookup, etapa_unwind. simpl.
  by destruct (categorias db !! g_id g).
Qed.

(** The output documents of the pipeline. *)
Lemma agregar_existencias_elem db e :
  e ∈ agregar_existencias db ↔
  ∃ k, categorias db !! e_id e = Some k ∧ e_nombre e = cat_nombre k ∧
       (∃ i p, productos db !! i = Some p ∧ categoriaID p = e_id e) ∧
       e_totalExistencias e = existencias_de (e_id e) db.
Proof.
  rewrite agregar_existencias_omap, list_elem_of_omap.
  rewrite existencias_de_suma.
  pose proof (group_NoDup (map_to_list (productos db)) [] (NoDup_nil_2)) as Hnd.
  fold (etapa_group (map_to_list (productos db))) in Hnd.
  split.
  - intros (g & Hg & Hres). unfold resolver in Hres.
    destruct (categorias db !! g_id g) as [k|] eqn:Hk; [|done].
    injection Hres as <-. simpl. exists k. repeat split; try done.
    + assert (Hid : g_id g ∈ g_id <$> etapa_group (map_to_list (productos db)))
        by by apply list_elem_of_fmap_2.
      apply group_ids in Hid as [Hid|([i p] & Hd & Hc)]; [by inversion Hid|].
      apply elem_of_map_to_list in Hd. eauto.
    + rewrite <- (total_en_elem g _ Hnd Hg). unfold etapa_group.
      by rewrite group_total.
  - intros (k & Hk & Hnom & (i & p & Hp & Hc) & Htot).
    assert (Hid : e_id e ∈ g_id <$> etapa_group (map_to_list (productos db))).
    { apply group_ids. right. exists (i, p). split; [|done].
      by apply elem_of_map_to_list. }
    apply list_elem_of_fmap in Hid as (g & Hgid & Hg).
    exists g. split; [done|]. unfold resolver. rewrite <- Hgid, Hk. simpl.
    destruct e as [ei en et]; simpl in *. f_equal. f_equal; [done|].
    rewrite Htot, Hgid, <- (total_en_elem g _ Hnd Hg). unfold etapa_group.
    by rewrite group_total.
Qed.





(** *** What the pipeline leaves out *)

Lemma suma_totales_omap cats gs :
  suma_totales (omap (resolver cats) gs) = grupos_resueltos cats gs.
Proof.
  induction gs as [|g gs IH]; simpl; [done|].
  unfold resolver at 1. destruct (cats !! g_id g); simpl; by rewrite <- IH.
Qed.

Lemma grupos_resueltos_acumular cats c n gs :
  grupos_resueltos cats (acumular c n gs) =
  grupos_resueltos cats gs + (if cats !! c is Some _ then n else 0).
Proof.
  induction gs as [|g gs IH]; simpl.
  - destruct (cats !! c); lia.
  - destruct (decide (g_id g = c)) as [->|Hne]; simpl.
    + destruct (cats !! c); lia.
    + rewrite IH. destruct (cats !! g_id g); lia.
Qed.

Lemma grupos_resueltos_group cats docs : ∀ gs,
  grupos_resueltos cats (foldl paso_group gs docs) =
  grupos_resueltos cats gs + docs_resueltos cats docs.
Proof.
  induction docs as [|d docs IH]; intros gs; simpl; [lia|].
  rewrite IH. unfold paso_group. rewrite grupos_resueltos_acumular.
  destruct (cats !! categoriaID d.2); lia.
Qed.

Lemma docs_resueltos_le cats docs :
  Forall (λ d, 0 ≤ cantidad d.2) docs →
  docs_resueltos cats docs ≤ suma_docs docs.
Proof.
  induction 1 as [|d docs Hd _ IH]; simpl; [done|].
  destruct (cats !! categoriaID d.2); lia.
Qed.

Lemma docs_resueltos_huerfano cats docs d :
  Forall (λ d, 0 ≤ cantidad d.2) docs →
  d ∈ docs → cats !! categoriaID d.2 = None →
  docs_resueltos cats docs + cantidad d.2 ≤ suma_docs docs.
Proof.
  induction 1 as [|d' docs Hd' Hall IH]; intros Hin Hcat; [by inversion Hin|].
  simpl. apply elem_of_cons in Hin as [<-|Hin].
  - rewrite Hcat. pose proof (docs_resueltos_le cats docs Hall). lia.
  - specialize (IH Hin Hcat). destruct (cats !! categoriaID d'.2); lia.
Qed.

Lemma existencias_totales_suma db :
  existencias_totales db = suma_docs (map_to_list (productos db)).
Proof.
  unfold existencias_totales. rewrite map_fold_foldr.
  induction (map_to_list (productos db)) as [|[i p] docs IH]; [done|].
  simpl. by rewrite IH.
Qed.

(** The totals returned add up to the stock of the products whose category
    exists. *)
Lemma suma_totales_agregar db :
  suma_totales (agregar_existencias db) =
  docs_resueltos (categorias db) (map_to_list (productos db)).
Proof.
  rewrite agregar_existencias_omap, suma_totales_omap. unfold etapa_group.
  by rewrite grupos_resueltos_group.
Qed.

Lemma docs_resueltos_mas_sin_categoria cats docs :
  docs_resueltos cats docs + docs_sin_categoria cats docs = suma_docs docs.
Proof.
  induction docs as [|d docs IH]; simpl; [done|].
  destruct (cats !! categoriaID d.2); lia.
Qed.

Lemma existencias_sin_categoria_suma db :
  existencias_sin_categoria db
  = docs_sin_categoria (categorias db) (map_to_list (productos db)).
Proof.
  unfold existencias_sin_categoria. rewrite map_fold_foldr.
  induction (map_to_list (productos db)) as [|[i p] docs IH]; [done|].
  simpl. by rewrite IH.
Qed.

(** The stock of a category, and the stock without category, when a
    product is taken away. *)
Lemma existencias_de_borrar c i p db :
  productos db !! i = Some p →
  existencias_de c db
  = (if decide (categoriaID p = c) then cantidad p else 0)
    + existencias_de c (mkBD (delete i (productos db)) (categorias db)
                             (ventas db)).
Proof.
  intros Hp. unfold existencias_de; simpl.
  rewrite (map_fold_delete_L _ 0 i p (productos db)); [|intros|done].
  - destruct (decide (categoriaID p = c)); lia.
  - destruct (decide (categoriaID z1 = c)), (decide (categoriaID z2 = c)); lia.
Qed.

Lemma existencias_sin_categoria_borrar i p db :
  productos db !! i = Some p →
  categorias db !! categoriaID p = None →
  existencias_sin_categoria db
  = cantidad p
    + existencias_sin_categoria (mkBD (delete i (productos db)) (categorias db)
                                      (ventas db)).
Proof.
  intros Hp Hcat. unfold existencias_sin_categoria; simpl.
  rewrite (map_fold_delete_L _ 0 i p (productos db)); [|intros|done].
  - by rewrite Hcat.
  - destruct (categorias db !! categoriaID z1),
      (categorias db !! categoriaID z2); lia.
Qed.

(** * The specification, statement by statement *)

(** C1. Two lines for the same product are compared with the stock one by
    one, never as a sum: with 4 units in stock, a cart asking twice for 3
    units of the same product is sold (3 + 3 > 4) and leaves the stock at
    -2, below the minimum 0 the schema declares. *)
Theorem C1_lineas_duplicadas_sin_sumar :
  let cart := [mkItem 1 3; mkItem 1 3] in
  let res := correr (finalizarVenta sin_fallos cart) tienda in
  cantidad <$> productos tienda !! 1%positive = Some 4 ∧
  pedido 1 cart = 6 ∧
  res.1 = Some (VentaFinalizada 18) ∧
  cantidad <$> productos res.2 !! 1%positive = Some (-2).
Proof. vm_compute. done. Qed.

(** C2. The quick sale saves the sale and then the product, outside any
    transaction: when the second write fails, the request answers 500 and
    the sale stays in the ledger although no stock was taken. *)
Theorem C2_venta_rapida_sin_transaccion :
  let res := correr (venderProducto (falla_en 2) 1 (Some 2)) tienda in
  res.1 = Some (ErrorInternoCon ErrorAlmacen) ∧
  ventas res.2 = [venta_rapida 1 2 lapiz] ∧
  productos res.2 = productos tienda.
Proof. vm_compute. done. Qed.

(** C3. The decrement of the checkout is an unconditional [$inc]: from a
    database where every stock is at least 0, a checkout that is accepted
    leaves a negative stock. *)
Theorem C3_existencias_negativas :
  let res := correr (finalizarVenta sin_fallos [mkItem 2 6; mkItem 2 7]) tienda in
  existencias_validas tienda ∧
  res.1 = Some (VentaFinalizada 26) ∧
  productos res.2 !! 2%positive = Some (con_cantidad (-3) goma) ∧
  ¬ existencias_validas res.2.
Proof.
  simpl. split; [|split; [|split]].
  - apply (bool_decide_unpack _). by vm_compute.
  - by vm_compute.
  - by vm_compute.
  - intros Hval. specialize (Hval 2%positive (con_cantidad (-3) goma)).
    simpl in Hval. assert (0 ≤ -3) as Habs; [|lia]. apply Hval.
    by vm_compute.
Qed.




(** C5, as the claim has it: the error for a line that asks too much would
    tell the quantity asked.  It does not: asking for 10 or for 11 units of
    a product with 4 in stock gets the same response, which names the
    product and the 4 units left. *)
Lemma C5_contraejemplo :
  let r10 := correr (finalizarVenta sin_fallos [mkItem 1 10]) tienda in
  let r11 := correr (finalizarVenta sin_fallos [mkItem 1 11]) tienda in
  r10.1 = Some (StockInsuficientePara "Lapiz" 4) ∧ r11.1 = r10.1.
Proof. by vm_compute. Qed.

(** C5, amended. A cart whose first line that is not valid is [item] is
    rejected and leaves the database as it was, whatever the store does;
    when the reads up to that line do not fail, the response is the error
    of that line: not found, with the id asked for, or not enough stock,
    with the name of the product and the quantity in stock. *)
Theorem C5_primera_linea_invalida falla db previas item resto :
  Forall (linea_valida db) previas →
  ¬ linea_valida db item →
  ∃ r, correr (finalizarVenta falla (previas ++ item :: resto)) db
         = (Some r, db) ∧
       estado r ≠ 200%nat ∧
       ((∀ k, (k ≤ length previas)%nat → falla k = false) →
        r = error_linea db item ∧
        (productos db !! item_id item = None ∧
           r = NoEncontradoID (item_id item) ∨
         ∃ p, productos db !! item_id item = Some p ∧
              cantidad p < item_cantidad item ∧
              r = StockInsuficientePara (nombre p) (cantidad p))).
Proof.
  intros Hprev Hbad.
  destruct (correr (finalizarVenta falla (previas ++ item :: resto)) db)
    as [r db'] eqn:Hrun.
  destruct (finalizarVenta_casos _ _ _ _ _ Hrun)
    as [(Hnil & _)|[(previas' & item' & resto' & Heq & Hprev' & Hbad' & Hno & -> & ->)
       |[(_ & (previas' & resto' & Heq & Hprev' & Hfj) & -> & ->)
       |[(_ & Hall & _)|(_ & Hall & _)]]]].
  - by destruct previas.
  - destruct (primera_invalida_unica db _ _ _ _ _ _ Heq) as [<- <-]; try done.
    exists (error_linea db item). split; [done|].
    split; [apply error_linea_estado|]. intros _. split; [done|].
    unfold error_linea. destruct (productos db !! item_id item) as [p|] eqn:Hp.
    + right. exists p. split; [done|]. split; [|done].
      destruct (decide (cantidad p < item_cantidad item)); [done|].
      exfalso. apply Hbad. exists p. split; [done | lia].
    + by left.
  - exists ErrorInterno. split; [done|]. split; [done|]. intros Hno.
    exfalso. rewrite Hno in Hfj; [done|].
    by eapply validas_antes_de_invalida.
  - exfalso. apply Hbad. apply Forall_app in Hall as [_ Hall]. by inversion Hall.
  - exfalso. apply Hbad. apply Forall_app in Hall as [_ Hall]. by inversion Hall.
Qed.

Lemma C5_primera_linea_invalida_witness :
  ∃ r, correr (finalizarVenta (falla_en 7) [mkItem 2 3; mkItem 1 9; mkItem 5 1])
         tienda = (Some r, tienda) ∧
       estado r ≠ 200%nat ∧
       ((∀ k, (k ≤ 1)%nat → falla_en 7 k = false) →
        r = error_linea tienda (mkItem 1 9) ∧
        (productos tienda !! 1%positive = None ∧ r = NoEncontradoID 1 ∨
         ∃ p, productos tienda !! 1%positive = Some p ∧
              cantidad p < 9 ∧
              r = StockInsuficientePara (nombre p) (cantidad p))).
Proof.
  apply (C5_primera_linea_invalida (falla_en 7) tienda
           [mkItem 2 3] (mkItem 1 9) [mkItem 5 1]).
  - repeat constructor; eexists; (split; [vm_compute; reflexivity | simpl; lia]).
  - intros (p & Hp & Hle). vm_compute in Hp. injection Hp as <-.
    simpl in Hle. lia.
Defined.

(** C6. A non-empty cart whose lines all ask for an existing product and
    for no more than its stock is sold when the store does not fail: the
    response is the success message with the total, every product loses
    exactly what the cart asks of it, and one sale is appended whose items
    are the lines with the name and price of their product, each subtotal
    being quantity times unit price and the total the sum of the
    subtotals. *)
Theorem C6_carrito_valido falla db cart :
  cart ≠ [] →
  Forall (linea_valida db) cart →
  (∀ k, falla k = false) →
  ∃ v db',
    correr (finalizarVenta falla cart) db
      = (Some (VentaFinalizada (totalVenta v)), db') ∧
    ventas db' = ventas db ++ [v] ∧
    categorias db' = categorias db ∧
    (∀ i, productos db' !! i =
          (λ p, mkProducto (nombre p) (precio p)
                           (cantidad p - pedido i cart) (categoriaID p))
            <$> productos db !! i) ∧
    Forall2 (λ item pv, ∃ p, productos db !! item_id item = Some p ∧
                             pv = mkProductoVendido (item_id item) (nombre p)
                                    (precio p) (item_cantidad item)
                                    (item_cantidad item * precio p))
            cart (productosVendidos v) ∧
    Forall (λ pv, subtotal pv = pv_cantidad pv * precioUnitario pv)
           (productosVendidos v) ∧
    totalVenta v = suma_subtotales (productosVendidos v).
Proof.
  intros Hne Hall Hno.
  exists (venta_carrito db cart), (bd_vendida db cart).
  split; [by apply finalizarVenta_exito|].
  unfold bd_vendida, insertar_venta; simpl.
  split; [by rewrite descuentos_ventas|].
  split; [by rewrite descuentos_categorias|].
  split; [intros i; apply descuentos_productos|].
  split; [by apply vendidos_validos|].
  split; [apply vendidos_subtotal | done].
Qed.

Lemma C6_carrito_valido_witness :
  ∃ v db',
    correr (finalizarVenta sin_fallos [mkItem 1 2; mkItem 2 3; mkItem 1 1])
      tienda = (Some (VentaFinalizada (totalVenta v)), db') ∧
    ventas db' = ventas tienda ++ [v] ∧
    categorias db' = categorias tienda ∧
    (∀ i, productos db' !! i =
          (λ p, mkProducto (nombre p) (precio p)
                  (cantidad p - pedido i [mkItem 1 2; mkItem 2 3; mkItem 1 1])
                  (categoriaID p))
            <$> productos tienda !! i) ∧
    Forall2 (λ item pv, ∃ p, productos tienda !! item_id item = Some p ∧
                             pv = mkProductoVendido (item_id item) (nombre p)
                                    (precio p) (item_cantidad item)
                                    (item_cantidad item * precio p))
            [mkItem 1 2; mkItem 2 3; mkItem 1 1] (productosVendidos v) ∧
    Forall (λ pv, subtotal pv = pv_cantidad pv * precioUnitario pv)
           (productosVendidos v) ∧
    totalVenta v = suma_subtotales (productosVendidos v).
Proof.
  apply (C6_carrito_valido sin_fallos tienda
           [mkItem 1 2; mkItem 2 3; mkItem 1 1]).
  - discriminate.
  - repeat constructor; eexists; (split; [vm_compute; reflexivity | simpl; lia]).
  - reflexivity.
Defined.

(** C7, as the claim has it: the value returned would be the committed sale.
    It is not: two checkouts that commit different sales (2 pencils at 3,
    3 erasers at 2) return the same value, the message with the total 6. *)
Lemma C7_contraejemplo :
  let a := correr (finalizarVenta sin_fallos [mkItem 1 2]) tienda in
  let b := correr (finalizarVenta sin_fallos [mkItem 2 3]) tienda in
  a.1 = Some (VentaFinalizada 6) ∧ b.1 = a.1 ∧ ventas a.2 ≠ ventas b.2.
Proof. by vm_compute. Qed.

(** C7, amended. A successful checkout returns the success message with the
    total of the sale it committed; a successful quick sale returns the
    quantity sold and the product as updated, with its new stock.  Each
    holds of its own route, whatever the other one would do. *)
Theorem C7_respuesta_de_exito falla db :
  (∀ cart r db',
     correr (finalizarVenta falla cart) db = (Some r, db') →
     estado r = 200%nat →
     ∃ v, ventas db' = ventas db ++ [v] ∧ r = VentaFinalizada (totalVenta v)) ∧
  (∀ i cq r db',
     correr (venderProducto falla i cq) db = (Some r, db') →
     estado r = 200%nat →
     ∃ q p v, cq = Some q ∧ productos db !! i = Some p ∧
              ventas db' = ventas db ++ [v] ∧
              productos db' !! i
                = Some (mkProducto (nombre p) (precio p) (cantidad p - q)
                                   (categoriaID p)) ∧
              r = VentaRegistrada q i
                    (mkProducto (nombre p) (precio p) (cantidad p - q)
                                (categoriaID p))).
Proof.
  split.
  - intros cart r db' Hrun Hest.
    apply finalizarVenta_casos in Hrun
      as [(_ & [= ->] & _)|[(_ & item & _ & _ & _ & _ & _ & [= ->] & _)
         |[(_ & _ & [= ->] & _)|[(_ & _ & _ & (k & _ & _ & _ & [= ->]) & _)
         |(_ & _ & _ & [= ->] & ->)]]]]; try done.
    + by apply error_linea_estado in Hest.
    + by destruct (falla (S k)).
    + exists (venta_carrito db cart). split; [|done].
      unfold bd_vendida, insertar_venta; simpl. by rewrite descuentos_ventas.
  - intros i cq r db' Hrun Hest.
    apply venderProducto_casos in Hrun
      as [(_ & [= ->] & _)|(q & -> & Hq & [(_ & [= ->] & _)
         |[(_ & _ & [= ->] & _)|(p & _ & Hp & [(_ & [= ->] & _)
         |[(_ & _ & [= ->] & _)|[(_ & _ & _ & [= ->] & _)
         |(_ & _ & _ & [= ->] & ->)]]])]])]; try done.
    exists q, p, (venta_rapida i q p). repeat split; try done.
    unfold set_cantidad, insertar_venta; simpl.
    by rewrite lookup_alter_eq, Hp.
Qed.

Lemma C7_respuesta_de_exito_witness :
  (∃ v, ventas (bd_vendida tienda [mkItem 1 2]) = ventas tienda ++ [v] ∧
        VentaFinalizada 6 = VentaFinalizada (totalVenta v)) ∧
  (∃ q p v, Some 3 = Some q ∧ productos tienda !! 2%positive = Some p ∧
            ventas (set_cantidad 2 7 (insertar_venta (venta_rapida 2 3 goma)
                                        tienda)) = ventas tienda ++ [v] ∧
            productos (set_cantidad 2 7 (insertar_venta (venta_rapida 2 3 goma)
                                           tienda)) !! 2%positive
              = Some (mkProducto (nombre p) (precio p) (cantidad p - q)
                                 (categoriaID p)) ∧
            VentaRegistrada 3 2 (con_cantidad 7 goma)
              = VentaRegistrada q 2
                  (mkProducto (nombre p) (precio p) (cantidad p - q)
                              (categoriaID p))).
Proof.
  split.
  - apply (proj1 (C7_respuesta_de_exito sin_fallos tienda) [mkItem 1 2]).
    + vm_compute. reflexivity.
    + reflexivity.
  - apply (proj2 (C7_respuesta_de_exito sin_fallos tienda) 2%positive (Some 3)).
    + vm_compute. reflexivity.
    + reflexivity.
Defined.

(** C8, as the claim has it: the quick sale would be the checkout of a cart
    of one line, with the same result to the caller, for every quantity.
    A sale both accept gets different responses (the updated product, or
    the message with the total); and the quantity 0 is rejected by the quick
    sale, while the checkout records a sale of 0 units. *)
Lemma C8_contraejemplo :
  let rapida := correr (venderProducto sin_fallos 1 (Some 2)) tienda in
  let carrito := correr (finalizarVenta sin_fallos [mkItem 1 2]) tienda in
  let rapida0 := correr (venderProducto sin_fallos 1 (Some 0)) tienda in
  let carrito0 := correr (finalizarVenta sin_fallos [mkItem 1 0]) tienda in
  rapida.1 = Some (VentaRegistrada 2 1 (con_cantidad 2 lapiz)) ∧
  carrito.1 = Some (VentaFinalizada 6) ∧
  rapida.1 ≠ carrito.1 ∧
  rapida0 = (Some CantidadInvalida, tienda) ∧
  carrito0.1 = Some (VentaFinalizada 0) ∧
  ventas carrito0.2 ≠ ventas rapida0.2.
Proof. by vm_compute. Qed.

(** C8, amended. For a quantity above zero, a store that does not fail and
    a product that, when it exists, has the name and the price its schema
    asks for, the quick sale and the checkout of the cart of that one line
    have the same outcome (the same HTTP status) and leave the same products
    and the same ledger; what they send to the caller is never the same. *)
Theorem C8_venta_rapida_como_carrito falla db i q :
  0 < q →
  (∀ k, falla k = false) →
  (∀ p, productos db !! i = Some p → nombre p ≠ "" ∧ 0 ≤ precio p) →
  let rapida := correr (venderProducto falla i (Some q)) db in
  let carrito := correr (finalizarVenta falla [mkItem i q]) db in
  estado <$> rapida.1 = estado <$> carrito.1 ∧
  rapida.2 = carrito.2 ∧
  rapida.1 ≠ carrito.1.
Proof.
  intros Hq Hno Hesq rapida carrito. subst rapida carrito.
  destruct (correr (venderProducto falla i (Some q)) db) as [r1 d1] eqn:Hr.
  apply venderProducto_casos in Hr
    as [([[=]|(q' & [= <-] & Hle)] & _)|(q' & [= <-] & _ & Hr)]; [lia|].
  destruct Hr as [(Hf & _)|[(_ & Hp & -> & ->)|(p & _ & Hp & Hr)]].
  - by rewrite Hno in Hf.
  - assert (Hbad : ¬ linea_valida db (mkItem i q)).
    { intros (p & Hp' & _). simpl in Hp'. congruence. }
    pose proof (finalizarVenta_invalida falla db [] (mkItem i q) []
                  (Forall_nil_2 _) Hbad (λ k _, Hno k)) as Hrun.
    simpl in Hrun. rewrite Hrun. unfold error_linea; simpl. by rewrite Hp.
  - destruct (Hesq p Hp) as [Hnom Hprecio].
    destruct Hr as [(Hlt & -> & ->)|[(_ & Hf & _)|[(Hle & _ & Hdoc & _)
                   |(Hle & _ & _ & -> & ->)]]].
    + assert (Hbad : ¬ linea_valida db (mkItem i q)).
      { intros (p' & Hp' & Hle). simpl in *. simplify_eq. lia. }
      pose proof (finalizarVenta_invalida falla db [] (mkItem i q) []
                    (Forall_nil_2 _) Hbad (λ k _, Hno k)) as Hrun.
      simpl in Hrun. rewrite Hrun. unfold error_linea; simpl. by rewrite Hp.
    + by rewrite Hno in Hf.
    + rewrite Hno in Hdoc. exfalso.
      assert (Hval : documento_valido (con_cantidad (cantidad p - q) p) = true);
        [|by specialize (Hdoc Hval)].
      unfold documento_valido; simpl.
      rewrite bool_decide_false by done. simpl.
      apply andb_true_iff. split; apply Z.leb_le; lia.
    + rewrite finalizarVenta_exito; [|done| |intros; apply Hno].
      2:{ repeat constructor. by exists p. }
      simpl. split; [done|]. split; [|done].
      unfold bd_vendida, venta_carrito, vendidos, set_cantidad, insertar_venta,
        venta_rapida, inc_cantidad; simpl. rewrite Hp; simpl.
      unfold vendido; simpl. f_equal.
      * apply map_eq. intros j. rewrite !lookup_alter.
        destruct (decide (i = j)) as [<-|]; [|done].
        rewrite Hp; simpl. unfold con_cantidad; simpl. do 2 f_equal; lia.
      * by rewrite (Z.mul_comm (precio p) q), Z.add_0_r.
Qed.

Lemma C8_venta_rapida_como_carrito_witness :
  let rapida := correr (venderProducto sin_fallos 2 (Some 4)) tienda in
  let carrito := correr (finalizarVenta sin_fallos [mkItem 2 4]) tienda in
  estado <$> rapida.1 = estado <$> carrito.1 ∧
  rapida.2 = carrito.2 ∧
  rapida.1 ≠ carrito.1.
Proof.
  apply (C8_venta_rapida_como_carrito sin_fallos tienda 2 4).
  - lia.
  - reflexivity.
  - intros p Hp. vm_compute in Hp. injection Hp as <-. simpl.
    split; [discriminate | lia].
Defined.

(** The example of the aggregation: A (5) and B (3) in X, C (2) in Y, and
    a category Z without products. *)
Example existencias_almacen :
  (existencias_inicio sin_fallos (mkMundo almacen None 0)).1
    = Valor {[ "X" := 8; "Y" := 2 ]}.
Proof. by vm_compute. Qed.

(** C9. The query owes an entry to every category that has products, but
    the [reduce] stores nothing under the key ["__proto__"]: with A (5) and
    B (3) in a category of that name and C (2) in Y, the aggregation returns
    the totals 8 and 2, and the map the route builds from them holds Y
    only. *)
Theorem C9_categoria_proto :
  let res := correr_en (calcularExistenciasPorCategoria sin_fallos)
               almacen_proto in
  let mapa := correr_en (existencias_inicio sin_fallos) almacen_proto in
  nombres_unicos almacen_proto ∧
  categorias almacen_proto !! 1%positive = Some (mkCategoria "__proto__") ∧
  existencias_de 1 almacen_proto = 8 ∧
  (∃ l, res.1 = Some l ∧ mkExistencia 1 "__proto__" 8 ∈ l ∧
        mkExistencia 2 "Y" 2 ∈ l) ∧
  mapa.1 = Some {[ "Y" := 2 ]} ∧
  (∀ m, mapa.1 = Some m → m !! "__proto__" = None).
Proof.
  cbv zeta. split; [apply (bool_decide_unpack _); by vm_compute|].
  split; [by vm_compute|]. split; [by vm_compute|]. split.
  - eexists. split; [by vm_compute|].
    split; rewrite !elem_of_cons; [by right; left | by left].
  - split; [by vm_compute|].
    intros m. vm_compute. by intros [= <-].
Qed.

(** C10. A product whose category does not exist is in no group that the
    query returns: no returned document has its category as [_id], and each
    returned total is the stock of its category with or without that
    product.  The returned totals and the stock of the products without an
    existing category add up to the whole stock, and that product's stock is
    part of the latter; so, where no stock is negative, the returned totals
    fall short of the whole stock by that product's stock at least. *)
Theorem C10_categoria_inexistente falla db i p :
  falla 0%nat = false →
  productos db !! i = Some p →
  categorias db !! categoriaID p = None →
  ∃ l w',
    calcularExistenciasPorCategoria falla (mkMundo db None 0) = (Valor l, w') ∧
    (∀ e, e ∈ l →
       e_id e ≠ categoriaID p ∧
       e_totalExistencias e = existencias_de (e_id e) db ∧
       e_totalExistencias e = existencias_de (e_id e) (borrar_producto i db)) ∧
    suma_totales l + existencias_sin_categoria db = existencias_totales db ∧
    existencias_sin_categoria db
      = cantidad p + existencias_sin_categoria (borrar_producto i db) ∧
    (existencias_validas db →
     suma_totales l + cantidad p ≤ existencias_totales db).
Proof.
  intros Hf Hp Hcat.
  exists (agregar_existencias db), (mkMundo db None 1).
  split; [|split; [|split; [|split]]].
  - unfold calcularExistenciasPorCategoria, intentar, operacion. simpl.
    by rewrite Hf.
  - intros e He.
    apply agregar_existencias_elem in He as (k & Hk & _ & _ & Htot).
    assert (Hne : e_id e ≠ categoriaID p) by congruence.
    split; [done|]. split; [done|].
    rewrite Htot, (existencias_de_borrar (e_id e) i p db Hp).
    rewrite decide_False by done. done.
  - rewrite suma_totales_agregar, existencias_totales_suma,
      existencias_sin_categoria_suma.
    apply docs_resueltos_mas_sin_categoria.
  - by apply existencias_sin_categoria_borrar.
  - intros Hval. rewrite suma_totales_agregar, existencias_totales_suma.
    apply (docs_resueltos_huerfano _ _ (i, p)); [|by apply elem_of_map_to_list|done].
    apply Forall_forall. intros [j q] Hjq.
    apply elem_of_map_to_list in Hjq. by apply (Hval j q).
Qed.

Lemma C10_categoria_inexistente_witness :
  ∃ l w',
    calcularExistenciasPorCategoria sin_fallos (mkMundo almacen_huerfano None 0)
      = (Valor l, w') ∧
    (∀ e, e ∈ l →
       e_id e ≠ 9%positive ∧
       e_totalExistencias e = existencias_de (e_id e) almacen_huerfano ∧
       e_totalExistencias e
         = existencias_de (e_id e) (borrar_producto 4 almacen_huerfano)) ∧
    suma_totales l + existencias_sin_categoria almacen_huerfano
      = existencias_totales almacen_huerfano ∧
    existencias_sin_categoria almacen_huerfano
      = 7 + existencias_sin_categoria (borrar_producto 4 almacen_huerfano) ∧
    (existencias_validas almacen_huerfano →
     suma_totales l + 7 ≤ existencias_totales almacen_huerfano).
Proof.
  apply (C10_categoria_inexistente sin_fallos almacen_huerfano 4
           (mkProducto "D" 40 7 9)).
  - reflexivity.
  - vm_compute. reflexivity.
  - vm_compute. reflexivity.
Defined.

(** In that example the query returns the totals 8 and 2 out of a stock of
    17. *)
Example existencias_almacen_huerfano :
  suma_totales (agregar_existencias almacen_huerfano) = 10 ∧
  existencias_totales almacen_huerfano = 17.
Proof. by vm_compute. Qed.

(** * Beyond the specification: what the routes keep *)

(** ** The ledger and the stock *)

Lemma unidades_vendidas_app i vs v :
  unidades_vendidas i (vs ++ [v]) =
  unidades_vendidas i vs + unidades_en i (productosVendidos v).
Proof. induction vs as [|v' vs IH]; simpl; [lia | rewrite IH; lia]. Qed.

Lemma vendidos_cons db item resto p :
  productos db !! item_id item = Some p →
  vendidos db (item :: resto) = vendido item p :: vendidos db resto.
Proof. intros Hp. unfold vendidos; simpl. by rewrite Hp. Qed.

Lemma unidades_en_vendidos db i cart :
  Forall (linea_valida db) cart →
  unidades_en i (vendidos db cart) = pedido i cart.
Proof.
  induction 1 as [|item resto (p & Hp & _) _ IH]; [done|].
  rewrite (vendidos_cons db item resto p Hp).
  change (unidades_en i (vendido item p :: vendidos db resto))
    with (if decide (item_id item = i)
          then item_cantidad item + unidades_en i (vendidos db resto)
          else unidades_en i (vendidos db resto)).
  by rewrite IH.
Qed.

Lemma pedido_fuera i cart :
  i ∉ item_id <$> cart → pedido i cart = 0.
Proof.
  induction cart as [|item resto IH]; simpl; [done|].
  rewrite not_elem_of_cons. intros [Hne Hnotin].
  rewrite decide_False by done. by apply IH.
Qed.

(** In a cart without repeated products, a product is asked what its one
    line asks. *)
Lemma pedido_NoDup db cart i p :
  NoDup (item_id <$> cart) → Forall (linea_valida db) cart →
  productos db !! i = Some p → 0 ≤ cantidad p →
  pedido i cart ≤ cantidad p.
Proof.
  intros Hnd Hall Hp Hpos.
  induction Hall as [|item resto (p' & Hp' & Hle) _ IH]; simpl; [done|].
  simpl in Hnd. apply NoDup_cons in Hnd as [Hnotin Hnd].
  destruct (decide (item_id item = i)) as [Heq|Hne]; [|by apply IH].
  rewrite pedido_fuera by by rewrite <- Heq.
  rewrite Heq in Hp'. simplify_eq. lia.
Qed.

(** X1. The checkout always answers, and unless it answers 200 it leaves
    the database as it found it, whatever the store does. *)
Theorem X1_carrito_todo_o_nada falla cart db :
  ∃ resp, (correr (finalizarVenta falla cart) db).1 = Some resp ∧
          (estado resp ≠ 200%nat →
           (correr (finalizarVenta falla cart) db).2 = db).
Proof.
  destruct (correr (finalizarVenta falla cart) db) as [r db'] eqn:Hrun.
  apply finalizarVenta_casos in Hrun
    as [(_ & -> & ->)|[(_ & item & _ & _ & _ & _ & _ & -> & ->)
       |[(_ & _ & -> & ->)|[(_ & _ & _ & (k & _ & _ & _ & ->) & ->)
       |(_ & _ & _ & -> & ->)]]]]; simpl; eauto.
  eexists. split; [done|]. simpl. done.
Qed.

(** X2. The checkout conserves, for every product, its stock plus its units
    in the ledger, whatever the cart and whatever the store does. *)
Theorem X2_carrito_conserva_unidades falla cart db i :
  let db' := (correr (finalizarVenta falla cart) db).2 in
  (λ p, cantidad p + unidades_vendidas i (ventas db')) <$> productos db' !! i
  = (λ p, cantidad p + unidades_vendidas i (ventas db)) <$> productos db !! i.
Proof.
  simpl.
  destruct (correr (finalizarVenta falla cart) db) as [r db'] eqn:Hrun.
  apply finalizarVenta_casos in Hrun
    as [(_ & _ & ->)|[(_ & _ & _ & _ & _ & _ & _ & _ & ->)
       |[(_ & _ & _ & ->)|[(_ & _ & _ & _ & ->)
       |(_ & Hall & _ & _ & ->)]]]]; try done.
  simpl. unfold bd_vendida, insertar_venta; simpl.
  rewrite descuentos_productos, descuentos_ventas, unidades_vendidas_app.
  simpl. rewrite unidades_en_vendidos by done.
  destruct (productos db !! i) as [p|]; simpl; [|done]. f_equal. lia.
Qed.

(** X3. A quick sale that does not answer 500 conserves, for every product,
    its stock plus its units in the ledger. *)
Theorem X3_venta_rapida_conserva_unidades falla i cq db j :
  ∃ resp, (correr (venderProducto falla i cq) db).1 = Some resp ∧
    (estado resp ≠ 500%nat →
     let db' := (correr (venderProducto falla i cq) db).2 in
     (λ p, cantidad p + unidades_vendidas j (ventas db')) <$> productos db' !! j
     = (λ p, cantidad p + unidades_vendidas j (ventas db))
         <$> productos db !! j).
Proof.
  destruct (correr (venderProducto falla i cq) db) as [r db'] eqn:Hrun.
  apply venderProducto_casos in Hrun
    as [(_ & -> & ->)|(q & _ & _ & [(_ & -> & ->)|[(_ & _ & -> & ->)
       |(p & _ & Hp & [(_ & -> & ->)|[(_ & _ & -> & ->)|[(_ & _ & _ & -> & ->)
       |(Hle & _ & _ & -> & ->)]]])]])]; simpl; eexists; (split; [done|]);
    try done.
  intros _. unfold set_cantidad, insertar_venta; simpl.
  rewrite lookup_alter, unidades_vendidas_app. simpl.
  destruct (decide (i = j)) as [<-|Hne].
  - simpl. rewrite Hp; simpl. f_equal. lia.
  - simpl. destruct (productos db !! j); simpl; [|done]. f_equal. lia.
Qed.

(** X4. A checkout whose cart names no product twice keeps every stock at 0
    or more, whatever the store does. *)
Theorem X4_carrito_sin_repetidos falla cart db :
  NoDup (item_id <$> cart) →
  existencias_validas db →
  existencias_validas (correr (finalizarVenta falla cart) db).2.
Proof.
  intros Hnd Hval.
  destruct (correr (finalizarVenta falla cart) db) as [r db'] eqn:Hrun.
  apply finalizarVenta_casos in Hrun
    as [(_ & _ & ->)|[(_ & _ & _ & _ & _ & _ & _ & _ & ->)
       |[(_ & _ & _ & ->)|[(_ & _ & _ & _ & ->)
       |(_ & Hall & _ & _ & ->)]]]]; try done.
  simpl. intros i p. unfold bd_vendida, insertar_venta; simpl.
  rewrite descuentos_productos.
  destruct (productos db !! i) as [p0|] eqn:Hp0; simpl; [|done].
  intros [= <-]. simpl.
  pose proof (pedido_NoDup db cart i p0 Hnd Hall Hp0 (Hval i p0 Hp0)). lia.
Qed.

Lemma X4_carrito_sin_repetidos_witness :
  existencias_validas
    (correr (finalizarVenta sin_fallos [mkItem 1 4; mkItem 2 10]) tienda).2.
Proof.
  apply (X4_carrito_sin_repetidos sin_fallos [mkItem 1 4; mkItem 2 10] tienda).
  - apply (bool_decide_unpack _). vm_compute. reflexivity.
  - apply (bool_decide_unpack _). vm_compute. reflexivity.
Defined.

(** X5. The two sale routes never add, remove, rename or reprice a product,
    never move it to another category, never touch the categories, and only
    append to the ledger, whatever the store does. *)
Theorem X5_ventas_solo_existencias falla cart i cq db :
  let db1 := (correr (finalizarVenta falla cart) db).2 in
  let db2 := (correr (venderProducto falla i cq) db).2 in
  (categorias db1 = categorias db ∧ ventas db `prefix_of` ventas db1 ∧
   ∀ j, con_cantidad 0 <$> productos db1 !! j
        = con_cantidad 0 <$> productos db !! j) ∧
  (categorias db2 = categorias db ∧ ventas db `prefix_of` ventas db2 ∧
   ∀ j, con_cantidad 0 <$> productos db2 !! j
        = con_cantidad 0 <$> productos db !! j).
Proof.
  simpl. split.
  - destruct (correr (finalizarVenta falla cart) db) as [r db'] eqn:Hrun.
    apply finalizarVenta_todo_o_nada in Hrun as [->|[_ ->]]; [done|].
    simpl. unfold bd_vendida, insertar_venta; simpl.
    rewrite descuentos_categorias, descuentos_ventas.
    split; [done|]. split; [by apply prefix_app_r|].
    intros j. rewrite descuentos_productos.
    by destruct (productos db !! j).
  - destruct (correr (venderProducto falla i cq) db) as [r db'] eqn:Hrun.
    apply venderProducto_casos in Hrun
      as [(_ & _ & ->)|(q & _ & _ & [(_ & _ & ->)|[(_ & _ & _ & ->)
         |(p & _ & Hp & [(_ & _ & ->)|[(_ & _ & _ & ->)|[(_ & _ & _ & _ & ->)
         |(Hle & _ & _ & _ & ->)]]])]])]; simpl; try done.
    + split; [done|]. split; [by apply prefix_app_r | done].
    + split; [done|]. split; [by apply prefix_app_r|].
      intros j. rewrite lookup_alter.
      destruct (decide (i = j)) as [<-|]; [|done]. by rewrite Hp.
Qed.

(** ** The total sold *)

Lemma suma_ventas_foldl vs : ∀ a,
  foldl (λ s v, s + totalVenta v) a vs = a + suma_ventas vs.
Proof.
  induction vs as [|v vs IH]; intros a; simpl; [lia|]. rewrite IH. lia.
Qed.

Lemma suma_ventas_app vs v :
  suma_ventas (vs ++ [v]) = suma_ventas vs + totalVenta v.
Proof. induction vs as [|v' vs IH]; simpl; [lia | rewrite IH; lia]. Qed.

Lemma calcularTotalVendido_valor falla w :
  calcularTotalVendido falla w
  = (Valor (if falla (reloj w) then 0 else suma_ventas (ventas (bd w))),
     avanzar w).
Proof.
  unfold calcularTotalVendido, intentar, operacion, mbind, M_bind, mret, M_ret.
  destruct (falla (reloj w)); [done|]. simpl. unfold agregar_total.
  destruct (ventas (bd w)) as [|v vs]; [done|].
  by rewrite suma_ventas_foldl.
Qed.

(** X6. The total sold is the sum of the totals of the ledger, 0 for an
    empty ledger; when the store fails it is 0 as well, the failure is not
    passed on; the database is not changed. *)
Theorem X6_total_vendido falla db :
  correr_en (calcularTotalVendido falla) db
  = (Some (if falla 0%nat then 0 else suma_ventas (ventas db)), db) ∧
  suma_ventas [] = 0.
Proof.
  split; [|done]. unfold correr_en. by rewrite calcularTotalVendido_valor.
Qed.

(** X7. After a checkout that answers success with the total [t], the total
    sold has grown by [t]. *)
Theorem X7_total_vendido_tras_carrito falla falla' cart db t :
  falla' 0%nat = false →
  (correr (finalizarVenta falla cart) db).1 = Some (VentaFinalizada t) →
  ∃ antes,
    (correr_en (calcularTotalVendido falla') db).1 = Some antes ∧
    (correr_en (calcularTotalVendido falla')
       (correr (finalizarVenta falla cart) db).2).1 = Some (antes + t).
Proof.
  intros Hf Hcart. exists (suma_ventas (ventas db)).
  unfold correr_en. rewrite !calcularTotalVendido_valor. simpl. rewrite Hf.
  split; [done|].
  destruct (correr (finalizarVenta falla cart) db) as [r db'] eqn:Hrun.
  simpl in *. subst r.
  apply finalizarVenta_casos in Hrun
    as [(_ & [=] & _)|[(_ & item & _ & _ & _ & _ & _ & Hr & _)
       |[(_ & _ & [=] & _)|[(_ & _ & _ & (k & _ & _ & _ & Hr) & _)
       |(_ & _ & _ & [= ->] & ->)]]]].
  - exfalso. injection Hr as Hr. unfold error_linea in Hr.
    by destruct (productos db !! item_id item).
  - by destruct (falla (S k)).
  - unfold bd_vendida, insertar_venta; simpl.
    by rewrite descuentos_ventas, suma_ventas_app.
Qed.

Lemma X7_total_vendido_tras_carrito_witness :
  ∃ antes,
    (correr_en (calcularTotalVendido sin_fallos) tienda).1 = Some antes ∧
    (correr_en (calcularTotalVendido sin_fallos)
       (correr (finalizarVenta sin_fallos [mkItem 1 2; mkItem 2 3]) tienda).2).1
      = Some (antes + 12).
Proof.
  apply (X7_total_vendido_tras_carrito sin_fallos sin_fallos
           [mkItem 1 2; mkItem 2 3] tienda 12).
  - reflexivity.
  - vm_compute. reflexivity.
Defined.

(** X8. After a quick sale that answers success for [q] units of a product,
    the total sold has grown by [q] times the price of the product. *)
Theorem X8_total_vendido_tras_venta_rapida falla falla' i cq db q p :
  falla' 0%nat = false →
  (correr (venderProducto falla i cq) db).1 = Some (VentaRegistrada q i p) →
  ∃ antes,
    (correr_en (calcularTotalVendido falla') db).1 = Some antes ∧
    (correr_en (calcularTotalVendido falla')
       (correr (venderProducto falla i cq) db).2).1
      = Some (antes + precio p * q).
Proof.
  intros Hf Hvender. exists (suma_ventas (ventas db)).
  unfold correr_en. rewrite !calcularTotalVendido_valor. simpl. rewrite Hf.
  split; [done|].
  destruct (correr (venderProducto falla i cq) db) as [r db'] eqn:Hrun.
  simpl in *. subst r.
  apply venderProducto_casos in Hrun
    as [(_ & [=] & _)|(q' & _ & _ & [(_ & [=] & _)|[(_ & _ & [=] & _)
       |(p' & _ & Hp & [(_ & [=] & _)|[(_ & _ & [=] & _)|[(_ & _ & _ & [=] & _)
       |(Hle & _ & _ & [= -> ->] & ->)]]])]])].
  unfold set_cantidad, insertar_venta; simpl.
  by rewrite suma_ventas_app.
Qed.

Lemma X8_total_vendido_tras_venta_rapida_witness :
  ∃ antes,
    (correr_en (calcularTotalVendido sin_fallos) tienda).1 = Some antes ∧
    (correr_en (calcularTotalVendido sin_fallos)
       (correr (venderProducto sin_fallos 2 (Some 4)) tienda).2).1
      = Some (antes + precio (con_cantidad 6 goma) * 4).
Proof.
  apply (X8_total_vendido_tras_venta_rapida sin_fallos sin_fallos
           2 (Some 4) tienda 4 (con_cantidad 6 goma)).
  - reflexivity.
  - vm_compute. reflexivity.
Defined.

(** ** Stock updates and deletions *)

Lemma set_cantidad_fuera i c db :
  productos db !! i = None → set_cantidad i c db = db.
Proof.
  intros Hp. destruct db as [ps cs vs]; unfold set_cantidad; simpl in *.
  f_equal. apply map_eq. intros j. rewrite lookup_alter.
  destruct (decide (i = j)) as [<-|]; [by rewrite Hp | done].
Qed.

Lemma borrar_producto_fuera i db :
  productos db !! i = None → borrar_producto i db = db.
Proof.
  intros Hp. destruct db as [ps cs vs]; unfold borrar_producto; simpl in *.
  f_equal. by apply delete_id.
Qed.

Lemma borrar_categoria_fuera i db :
  categorias db !! i = None → borrar_categoria i db = db.
Proof.
  intros Hp. destruct db as [ps cs vs]; unfold borrar_categoria; simpl in *.
  f_equal. by apply delete_id.
Qed.

(** The stock route, by cases. *)
Lemma actualizarStock_casos falla i cn db :
  correr_en (actualizarStock falla i cn) db =
  match cn with
  | None => (Some StockInvalido, db)
  | Some n =>
      if n <? 0 then (Some StockInvalido, db)
      else if falla 0%nat then (Some (ErrorAlActualizarStock ErrorAlmacen), db)
      else match productos db !! i with
           | None => (Some SinProductoParaStock, db)
           | Some p => (Some (StockActualizado (nombre p) n),
                        set_cantidad i n db)
           end
  end.
Proof.
  unfold correr_en, actualizarStock. destruct cn as [n|]; [|done].
  destruct (n <? 0) eqn:Hn; [done|].
  unfold intentar, mbind, M_bind, findByIdAndUpdate_cantidad. rewrite Hn.
  unfold operacion; simpl. destruct (falla 0%nat); [done|].
  destruct (productos db !! i) as [p|] eqn:Hp; simpl; [done|].
  by rewrite set_cantidad_fuera.
Qed.

Lemma eliminarProducto_casos falla i db :
  correr_en (eliminarProducto falla i) db =
  if falla 0%nat then (Some (ErrorAlEliminarProducto ErrorAlmacen), db)
  else match productos db !! i with
       | None => (Some ProductoNoEncontrado, db)
       | Some p => (Some (ProductoEliminado (nombre p)), borrar_producto i db)
       end.
Proof.
  unfold correr_en, eliminarProducto, intentar, mbind, M_bind,
    findByIdAndDelete_producto, operacion; simpl.
  destruct (falla 0%nat); [done|].
  destruct (productos db !! i) as [p|] eqn:Hp; simpl; [done|].
  by rewrite borrar_producto_fuera.
Qed.

Lemma eliminarCategoria_casos falla i db :
  correr_en (eliminarCategoria falla i) db =
  if falla 0%nat then (Some (ErrorAlEliminarCategoria ErrorAlmacen), db)
  else match categorias db !! i with
       | None => (Some CategoriaNoEncontrada, db)
       | Some k => (Some (CategoriaEliminada (cat_nombre k)),
                    borrar_categoria i db)
       end.
Proof.
  unfold correr_en, eliminarCategoria, intentar, mbind, M_bind,
    findByIdAndDelete_categoria, operacion; simpl.
  destruct (falla 0%nat); [done|].
  destruct (categorias db !! i) as [k|] eqn:Hk; simpl; [done|].
  by rewrite borrar_categoria_fuera.
Qed.

(** The goals of the answers that change nothing. *)
Ltac sin_cambio :=
  simpl; repeat (split; [done|]); eexists; (split; [done|]); done.

(** X9. The stock route answers "updated" only for a quantity that is a
    number, 0 or more, and a product that exists; the product then has that
    stock and keeps its name, price and category.  Every other answer
    leaves the database as it was.  In all cases the other products, the
    categories and the ledger are untouched. *)
Theorem X9_actualizar_stock falla i cn db :
  let res := correr_en (actualizarStock falla i cn) db in
  (∀ j, j ≠ i → productos res.2 !! j = productos db !! j) ∧
  categorias res.2 = categorias db ∧
  ventas res.2 = ventas db ∧
  ∃ resp, res.1 = Some resp ∧
    match resp with
    | StockActualizado nom n =>
        cn = Some n ∧ 0 ≤ n ∧
        ∃ p, productos db !! i = Some p ∧ nom = nombre p ∧
             productos res.2 !! i
               = Some (mkProducto (nombre p) (precio p) n (categoriaID p))
    | _ => res.2 = db
    end.
Proof.
  simpl. rewrite actualizarStock_casos.
  destruct cn as [n|]; [|sin_cambio].
  destruct (n <? 0) eqn:Hn; [sin_cambio|]. apply Z.ltb_ge in Hn.
  destruct (falla 0%nat); [sin_cambio|].
  destruct (productos db !! i) as [p|] eqn:Hp; [|sin_cambio].
  simpl. split; [|split; [done|split; [done|]]].
  - intros j Hj. by rewrite lookup_alter_ne.
  - eexists. split; [done|]. simpl. split; [done|]. split; [done|].
    exists p. by rewrite lookup_alter_eq, Hp.
Qed.

(** X10. Deleting a product removes that product and nothing else; the
    sales already recorded stay in the ledger.  A product that does not
    exist, or a failure of the store, leaves the database as it was. *)
Theorem X10_eliminar_producto falla i db :
  let res := correr_en (eliminarProducto falla i) db in
  categorias res.2 = categorias db ∧
  ventas res.2 = ventas db ∧
  (∀ j, j ≠ i → productos res.2 !! j = productos db !! j) ∧
  ∃ resp, res.1 = Some resp ∧
    match resp with
    | ProductoEliminado nom =>
        (∃ p, productos db !! i = Some p ∧ nom = nombre p) ∧
        productos res.2 !! i = None
    | _ => res.2 = db
    end.
Proof.
  simpl. rewrite eliminarProducto_casos.
  destruct (falla 0%nat); [sin_cambio|].
  destruct (productos db !! i) as [p|] eqn:Hp; [|sin_cambio].
  simpl. split; [done|]. split; [done|]. split.
  - intros j Hj. by rewrite lookup_delete_ne.
  - eexists. split; [done|]. simpl. split; [by eauto|].
    apply lookup_delete_eq.
Qed.

(** X11. Once a product is deleted it cannot be sold: the quick sale
    answers 404, the checkout answers 404 for its line, and neither changes
    the database. *)
Theorem X11_producto_eliminado_no_se_vende falla falla' i q nom db :
  (∀ k, falla' k = false) →
  0 < q →
  (correr_en (eliminarProducto falla i) db).1 = Some (ProductoEliminado nom) →
  let db' := (correr_en (eliminarProducto falla i) db).2 in
  correr (venderProducto falla' i (Some q)) db' = (Some NoEncontrado, db') ∧
  correr (finalizarVenta falla' [mkItem i q]) db'
    = (Some (NoEncontradoID i), db').
Proof.
  intros Hno Hq. rewrite eliminarProducto_casos.
  destruct (falla 0%nat); [done|].
  destruct (productos db !! i) as [p|] eqn:Hp; [|done].
  intros _. cbn [snd].
  split.
  - destruct (correr (venderProducto falla' i (Some q)) (borrar_producto i db))
      as [r d] eqn:Hrun.
    apply venderProducto_casos in Hrun
      as [([[=]|(q' & [= <-] & Hle)] & _)|(q' & [= <-] & _ & Hr)]; [lia|].
    destruct Hr as [(Hf & _)|[(_ & _ & -> & ->)|(p' & _ & Hp' & _)]].
    + by rewrite Hno in Hf.
    + done.
    + simpl in Hp'. by rewrite lookup_delete_eq in Hp'.
  - assert (Hbad : ¬ linea_valida (borrar_producto i db) (mkItem i q)).
    { intros (p' & Hp' & _). simpl in Hp'. by rewrite lookup_delete_eq in Hp'. }
    pose proof (finalizarVenta_invalida falla' (borrar_producto i db) []
                  (mkItem i q) [] (Forall_nil_2 _) Hbad (λ k _, Hno k)) as Hrun.
    simpl in Hrun. rewrite Hrun. unfold error_linea; simpl.
    by rewrite lookup_delete_eq.
Qed.

Lemma X11_producto_eliminado_no_se_vende_witness :
  let db' := (correr_en (eliminarProducto sin_fallos 1) tienda).2 in
  correr (venderProducto sin_fallos 1 (Some 2)) db' = (Some NoEncontrado, db') ∧
  correr (finalizarVenta sin_fallos [mkItem 1 2]) db'
    = (Some (NoEncontradoID 1), db').
Proof.
  apply (X11_producto_eliminado_no_se_vende sin_fallos sin_fallos 1 2
           "Lapiz" tienda).
  - reflexivity.
  - lia.
  - vm_compute. reflexivity.
Defined.

(** ** Categories, stock by category and the home page *)

Lemma calcularExistencias_valor falla w :
  calcularExistenciasPorCategoria falla w
  = (Valor (if falla (reloj w) then [] else agregar_existencias (bd w)),
     avanzar w).
Proof.
  unfold calcularExistenciasPorCategoria, intentar, operacion.
  by destruct (falla (reloj w)).
Qed.

Lemma resolver_delete cats c g :
  resolver (delete c cats) g
  = if decide (c = g_id g) then None else resolver cats g.
Proof. unfold resolver. rewrite lookup_delete. by destruct (decide _). Qed.

Lemma resolver_id cats g e : resolver cats g = Some e → e_id e = g_id g.
Proof.
  unfold resolver. destruct (cats !! g_id g); simpl; [|done]. by intros [= <-].
Qed.

Lemma omap_resolver_delete cats c (gs : list Grupo) :
  omap (resolver (delete c cats)) gs
  = filter (λ e, e_id e ≠ c) (omap (resolver cats) gs).
Proof.
  induction gs as [|g gs IH]; [done|].
  cbn [omap list_omap]. fold (omap (resolver (delete c cats)) gs).
  fold (omap (resolver cats) gs). rewrite IH, resolver_delete.
  destruct (resolver cats g) as [e|] eqn:He.
  - apply resolver_id in He.
    destruct (decide (c = g_id g)) as [->|Hne].
    + rewrite filter_cons_False; [done|]. by intros [].
    + rewrite filter_cons_True; [done|]. congruence.
  - by destruct (decide (c = g_id g)).
Qed.

(** X12. Deleting a category does not look at the products: it answers
    "deleted" even when products still belong to the category and leaves
    them as they are, and from then on the stock-by-category query returns
    what it returned before without the document of that category. *)
Theorem X12_eliminar_categoria falla falla' c k db :
  falla 0%nat = false →
  falla' 0%nat = false →
  categorias db !! c = Some k →
  let res := correr_en (eliminarCategoria falla c) db in
  res.1 = Some (CategoriaEliminada (cat_nombre k)) ∧
  productos res.2 = productos db ∧
  ventas res.2 = ventas db ∧
  categorias res.2 = delete c (categorias db) ∧
  ∃ antes,
    (correr_en (calcularExistenciasPorCategoria falla') db).1 = Some antes ∧
    (correr_en (calcularExistenciasPorCategoria falla') res.2).1
      = Some (filter (λ e, e_id e ≠ c) antes).
Proof.
  intros Hf Hf' Hk. cbv zeta. rewrite eliminarCategoria_casos, Hf, Hk.
  cbn [fst snd]. repeat (split; [done|]).
  exists (agregar_existencias db). unfold correr_en.
  rewrite !calcularExistencias_valor. cbn [fst snd reloj bd]. rewrite Hf'.
  split; [done|]. f_equal.
  rewrite !agregar_existencias_omap. apply omap_resolver_delete.
Qed.

Lemma X12_eliminar_categoria_witness :
  let res := correr_en (eliminarCategoria sin_fallos 1) almacen in
  res.1 = Some (CategoriaEliminada "X") ∧
  productos res.2 = productos almacen ∧
  ventas res.2 = ventas almacen ∧
  categorias res.2 = delete 1%positive (categorias almacen) ∧
  ∃ antes,
    (correr_en (calcularExistenciasPorCategoria sin_fallos) almacen).1
      = Some antes ∧
    (correr_en (calcularExistenciasPorCategoria sin_fallos) res.2).1
      = Some (filter (λ e, e_id e ≠ 1%positive) antes).
Proof.
  apply (X12_eliminar_categoria sin_fallos sin_fallos 1 (mkCategoria "X")
           almacen).
  - reflexivity.
  - reflexivity.
  - vm_compute. reflexivity.
Defined.

Lemma inicio_valor falla msg err db :
  correr_en (inicio falla msg err) db =
  (Some (if falla 0%nat then ErrorAlCargar ErrorAlmacen
         else Index (poblar db)
                (if falla 1%nat then ∅
                 else existenciasMap (agregar_existencias db))
                (if falla 2%nat then 0 else suma_ventas (ventas db))
                (o_null msg) (o_null err)),
   db).
Proof.
  unfold correr_en, inicio, intentar. unfold mbind at 1, M_bind at 1.
  unfold find_populate, operacion. cbn [reloj]. destruct (falla 0%nat); [done|].
  unfold mbind at 1, M_bind at 1. rewrite calcularExistencias_valor.
  unfold mbind, M_bind. rewrite calcularTotalVendido_valor.
  cbn [reloj avanzar bd]. unfold mret, M_ret. cbn [bd].
  by destruct (falla 1%nat), (falla 2%nat).
Qed.

(** X13. The home page is rendered whenever the list of products can be
    read: a failure of either aggregate is not passed on, the page then
    shows no stock by category or a total sold of 0.  Only a failure of the
    list of products gives the error 500.  The page lists every product
    once, with its category or without one when the category does not
    exist, and the route never changes the database. *)
Theorem X13_inicio falla msg err db :
  correr_en (inicio falla msg err) db =
  (Some (if falla 0%nat then ErrorAlCargar ErrorAlmacen
         else Index (poblar db)
                (if falla 1%nat then ∅
                 else existenciasMap (agregar_existencias db))
                (if falla 2%nat then 0 else suma_ventas (ventas db))
                (o_null msg) (o_null err)),
   db) ∧
  NoDup (pp_id <$> poblar db) ∧
  ∀ i p, productos db !! i = Some p ↔
         mkProductoPoblado i p (categorias db !! categoriaID p) ∈ poblar db.
Proof.
  split; [apply inicio_valor|]. unfold poblar. split.
  - rewrite <- list_fmap_compose. apply NoDup_fst_map_to_list.
  - intros i p. rewrite list_elem_of_fmap. split.
    + intros Hp. exists (i, p). split; [done|]. by apply elem_of_map_to_list.
    + intros ([j q] & [= -> ->] & Hin). by apply elem_of_map_to_list in Hin.
Qed.

(** *** Stock by category after a sale *)






(** ** Sequences of requests *)

Lemma atender_ventas falla pet db :
  ventas db `prefix_of` ventas (atender falla pet db).
Proof.
  destruct pet as [cart|i cq|i cn|i|i|msg err]; simpl.
  - destruct (correr (finalizarVenta falla cart) db) as [r db'] eqn:Hrun.
    apply finalizarVenta_todo_o_nada in Hrun as [->|[_ ->]]; [done|].
    simpl. rewrite descuentos_ventas. by apply prefix_app_r.
  - destruct (correr (venderProducto falla i cq) db) as [r db'] eqn:Hrun.
    apply venderProducto_casos in Hrun
      as [(_ & _ & ->)|(q & _ & _ & [(_ & _ & ->)|[(_ & _ & _ & ->)
         |(p & _ & Hp & [(_ & _ & ->)|[(_ & _ & _ & ->)|[(_ & _ & _ & _ & ->)
         |(Hle & _ & _ & _ & ->)]]])]])]; simpl; try done;
      by apply prefix_app_r.
  - rewrite actualizarStock_casos. by repeat case_match.
  - rewrite eliminarProducto_casos. by repeat case_match.
  - rewrite eliminarCategoria_casos. by repeat case_match.
  - by rewrite inicio_valor.
Qed.

Lemma atender_existencias_validas falla pet db :
  es_carrito pet = false →
  existencias_validas db → existencias_validas (atender falla pet db).
Proof.
  intros Hpet Hval.
  destruct pet as [cart|i cq|i cn|i|i|msg err]; simpl; [done|..].
  - destruct (correr (venderProducto falla i cq) db) as [r db'] eqn:Hrun.
    by eapply venderProducto_existencias_validas.
  - rewrite actualizarStock_casos. repeat case_match; simpl; try done.
    apply existencias_validas_set_cantidad; [done | lia].
  - rewrite eliminarProducto_casos. repeat case_match; simpl; try done.
    by apply map_Forall_delete.
  - rewrite eliminarCategoria_casos. by repeat case_match.
  - by rewrite inicio_valor.
Qed.

(** X15. Whatever requests are served, in whatever order and whatever the
    store does, the ledger only grows: the sales recorded before are still
    there, unchanged and in the same order. *)
Theorem X15_libro_solo_crece l db :
  ventas db `prefix_of` ventas (servir l db).
Proof.
  revert db. induction l as [|[falla pet] l IH]; intros db; [done|].
  simpl. etrans; [apply (atender_ventas falla pet)|apply IH].
Qed.

(** X16. Requests other than the checkout, in whatever order and whatever
    the store does, keep every stock at 0 or more. *)
Theorem X16_existencias_validas_sin_carrito l db :
  Forall (λ x, es_carrito x.2 = false) l →
  existencias_validas db →
  existencias_validas (servir l db).
Proof.
  revert db. induction l as [|[falla pet] l IH]; intros db Hl Hval; [done|].
  apply Forall_cons in Hl as [Hpet Hl]. simpl.
  apply IH; [done|]. by apply atender_existencias_validas.
Qed.

Lemma X16_existencias_validas_sin_carrito_witness :
  existencias_validas
    (servir [(sin_fallos, PostVender 1 (Some 4));
             (falla_en 2, PostVender 2 (Some 3));
             (sin_fallos, PostActualizarStock 1 (Some 0));
             (sin_fallos, PostEliminarProducto 2);
             (sin_fallos, PostVender 1 (Some 1))] tienda).
Proof.
  apply (X16_existencias_validas_sin_carrito
           [(sin_fallos, PostVender 1 (Some 4));
            (falla_en 2, PostVender 2 (Some 3));
            (sin_fallos, PostActualizarStock 1 (Some 0));
            (sin_fallos, PostEliminarProducto 2);
            (sin_fallos, PostVender 1 (Some 1))] tienda).
  - repeat constructor.
  - apply (bool_decide_unpack _). vm_compute. reflexivity.
Defined.

(** ** The two revisions of the routes *)

Ltac respuestas :=
  solve [ simpl; (split; [done|]); do 2 eexists;
          (split; [done|]); (split; [done|]); simpl; eauto ].

(** X17. The later revision of the quick sale leaves the same database as
    the first one, for every input and whatever the store does, and the
    answers correspond: the same rejections of the quantity and of the
    store's failures, a sale registered with total [precio * q] exactly when
    the first one answers success; it answers "not enough stock" also for a
    product that does not exist. *)
Theorem X17_venta_rapida_revisiones falla i cq db :
  let r1 := correr (venderProducto falla i cq) db in
  let r2 := correr_en (Rev2.venderProducto falla i cq) db in
  r2.2 = r1.2 ∧
  ∃ a b, r1.1 = Some a ∧ r2.1 = Some b ∧
    match b with
    | Rev2.CantidadInvalida => a = CantidadInvalida
    | Rev2.StockInsuficiente =>
        a = NoEncontrado ∨ ∃ d, a = StockInsuficiente d
    | Rev2.VentaRegistrada t =>
        ∃ q p, a = VentaRegistrada q i p ∧ t = precio p * q
    | Rev2.ErrorVenta e => a = ErrorInternoCon e
    | _ => False
    end.
Proof.
  unfold correr, correr_en, venderProducto, Rev2.venderProducto.
  destruct cq as [q|]; [|respuestas].
  destruct (q <=? 0); [respuestas|].
  unfold intentar, mbind, M_bind, findById, escribir, guardarProducto,
    escribir, operacion, lanzar, responder, mret, M_ret. simpl.
  destruct (falla 0%nat); [respuestas|].
  destruct (productos db !! i) as [p|]; [|respuestas].
  destruct (cantidad p <? q); [respuestas|]. simpl.
  destruct (falla 1%nat); [respuestas|]. simpl.
  destruct (documento_valido (con_cantidad (cantidad p - q) p));
    [|respuestas]. simpl.
  destruct (falla 2%nat); respuestas.
Qed.

(** X18. The later revision of the stock route leaves the same database as
    the first one, for every input and whatever the store does; but it does
    not look at the result of the update, and answers "updated" for a
    product that does not exist, where the first one answers "not
    found". *)
Theorem X18_actualizar_stock_revisiones falla i cn db :
  let r1 := correr_en (actualizarStock falla i cn) db in
  let r2 := correr_en (Rev2.actualizarStock falla i cn) db in
  r2.2 = r1.2 ∧
  (r1.1 = Some SinProductoParaStock → r2.1 = Some Rev2.StockActualizado) ∧
  (r2.1 = Some Rev2.StockActualizado ↔
   r1.1 = Some SinProductoParaStock ∨ ∃ nom n, r1.1 = Some (StockActualizado nom n)).
Proof.
  cbv zeta. rewrite actualizarStock_casos.
  unfold correr_en, Rev2.actualizarStock.
  assert (Hno : ∀ (r : Redireccion) (d : BD),
            r ≠ SinProductoParaStock → (∀ nom n, r ≠ StockActualizado nom n) →
            ∀ r2 : Rev2.Redireccion, r2 ≠ Rev2.StockActualizado →
            (Some r2, d).2 = (Some r, d).2 ∧
            ((Some r, d).1 = Some SinProductoParaStock →
             (Some r2, d).1 = Some Rev2.StockActualizado) ∧
            ((Some r2, d).1 = Some Rev2.StockActualizado ↔
             (Some r, d).1 = Some SinProductoParaStock ∨
             ∃ nom n, (Some r, d).1 = Some (StockActualizado nom n))).
  { intros r d H1 H2 r2 H3. simpl. split; [done|]. split; [congruence|].
    split; [congruence|]. intros [?|(nom & n & Hr)]; [congruence|].
    injection Hr as ->. by destruct (H2 nom n). }
  destruct cn as [n|]; [|by apply Hno].
  destruct (n <? 0); [by apply Hno|].
  unfold intentar, mbind, M_bind, escribir, operacion; simpl.
  destruct (falla 0%nat); [by apply Hno|].
  destruct (productos db !! i) as [p|] eqn:Hp; simpl.
  - split; [done|]. split; [done|]. split; [|done].
    intros _. right. eauto.
  - rewrite set_cantidad_fuera by done.
    split; [done|]. split; [done|]. split; [by left | done].
Qed.
